(** * cqparts: the Bolt Depot catalogue script and the test-label decorator

    A shallow embedding of
    - [src/cqparts_fasteners/catalogue/scripts/boltdepot.py]: the URL query
      codec ([split_url], [join_url]), [GrowingList], the table extractor
      ([push_data], [table_data]), the metrics walker ([parse]) and the
      module-level action sequencing (scrape, csv, build);
    - [tests/base.py]: the [testlabel] class decorator.

    Conventions.
    - Python integers are [Z]; [len] is the length as a [Z].
    - A raised exception is a value of [exn]; fallible code returns
      [result].  Code that mutates an object and may raise returns the
      object's state next to the result, because a handler can observe the
      state the exception left behind.
    - Strings are byte strings ([string]); a [dict] or [set] whose iteration
      order is not observed is a [gmap] or [gset].
    - The script is a Python 2 program (byte-string csv rows, [super] with
      arguments): a simple slice [data[n:]] of a list subclass goes to
      [list.__getslice__], not to the overridden [__getitem__]. *)

From Stdlib Require Import ZArith Ascii String.
From stdpp Require Import gmap strings list sorting.
From Equations Require Import Equations.
From Equations.Prop Require Import Logic.

Open Scope Z_scope.

(** ** Exceptions and results *)

Inductive exn : Type :=
| IndexError
| ValueError
| AttributeError
| KeyError
| IOError
| AssertionError
| NotImplementedError
| NameError (name : string).

Inductive result (A : Type) : Type :=
| Ok (a : A)
| Raise (e : exn).
Arguments Ok {A} a.
Arguments Raise {A} e.

Definition bind {A B : Type} (r : result A) (k : A -> result B) : result B :=
  match r with
  | Ok a => k a
  | Raise e => Raise e
  end.

Notation "'let!' x ':=' r 'in' k" := (bind r (fun x => k))
  (at level 10, x pattern, r at level 100, k at level 200).

Definition is_ok {A : Type} (r : result A) : bool :=
  match r with Ok _ => true | Raise _ => false end.

Definition len {T : Type} (l : list T) : Z := Z.of_nat (length l).

(** [range(n)]: empty when [n <= 0]. *)
Definition range (n : Z) : list Z := seqZ 0 n.

(** ** Built-in list indexing

    [list.__getitem__] and [list.__setitem__] at an integer index: a
    negative index counts from the end, and an index outside
    [-len, len) raises IndexError. *)

Section BuiltinList.
Context {T : Type}.

Definition norm_index (l : list T) (index : Z) : Z :=
  if index <? 0 then index + len l else index.

Definition list_getitem (l : list T) (index : Z) : result T :=
  let idx := norm_index l index in
  if (idx <? 0) || (len l <=? idx) then Raise IndexError
  else match l !! Z.to_nat idx with
       | Some x => Ok x
       | None => Raise IndexError
       end.

Definition list_setitem (l : list T) (index : Z) (value : T)
  : result (list T) :=
  let idx := norm_index l index in
  if (idx <? 0) || (len l <=? idx) then Raise IndexError
  else Ok (<[Z.to_nat idx := value]> l).
End BuiltinList.

(** ** GrowingList

    [default_type] is the value the factory [self._default_type()] builds;
    the factory is called once per new slot and builds a fresh object each
    time, so the new slots share nothing. *)

Module GrowingList.
Section GrowingList.
Context {T : Type} (default_type : T).

(** [if index >= len(self): self.extend([... for i in range(index + 1 - len(self))])] *)
Definition grow (self : list T) (index : Z) : list T :=
  if len self <=? index
  then self ++ replicate (Z.to_nat (index + 1 - len self)) default_type
  else self.

Definition getitem (self : list T) (index : Z) : list T * result T :=
  let self' := grow self index in
  (self', list_getitem self' index).

Definition setitem (self : list T) (index : Z) (value : T)
  : list T * result unit :=
  let self' := grow self index in
  match list_setitem self' index value with
  | Ok self'' => (self'', Ok tt)
  | Raise e => (self', Raise e)
  end.
End GrowingList.
End GrowingList.

(** ** The table grid

    A row buffer is a [GrowingList] with the default factory [lambda: None];
    the grid [data] is a [GrowingList] whose factory is [GrowingList]
    itself, so a new grid slot is a fresh empty row buffer. *)

Abbreviation row_buffer := (list (option string)).
Abbreviation grid := (list (list (option string))).

Definition row_getitem := GrowingList.getitem (T := option string) None.
Definition row_setitem := GrowingList.setitem (T := option string) None.
Definition data_getitem := GrowingList.getitem (T := row_buffer) [].

(** ** push_data

    The loop [while row[i] is not None: i += 1].  It stops with the state
    of [row] and [i] and, when [row[i]] raised, the pending exception. *)

Equations push_data_loop (row : row_buffer) (i : Z)
  : row_buffer * Z * option exn
  by wf (Z.to_nat (len row - i)) lt :=
  push_data_loop row i with inspect (row_getitem row i) => {
    | exist _ (row', Ok (Some _)) _ => push_data_loop row' (i + 1)
    | exist _ (row', Ok None) _ => (row', i, None)
    | exist _ (row', Raise e) _ => (row', i, Some e) }.
Next Obligation.
  (* a slot that holds a string existed before the access: the row did
     not grow and [i] moved one step closer to its end *)
  match goal with H : list_getitem _ _ = Ok _ |- _ => revert H end.
  unfold GrowingList.grow, list_getitem, norm_index, len.
  destruct (Z.leb_spec (Z.of_nat (length row)) i) as [Hge | Hlt].
  - rewrite length_app, length_replicate.
    destruct (Z.ltb_spec i 0) as [Hneg | Hpos]; [lia |].
    destruct (_ || _); [discriminate |].
    rewrite lookup_app_r by lia.
    destruct (replicate _ _ !! _) as [x |] eqn:E; [| discriminate].
    apply lookup_replicate in E as [-> _]. discriminate.
  - destruct (Z.ltb_spec i 0) as [Hneg | Hpos]; [| lia].
    destruct (Z.ltb_spec (i + Z.of_nat (length row)) 0);
      [discriminate | lia].
Qed.

(** [push_data(row, i, val)]: the [try] catches IndexError only; any other
    exception of the loop would propagate.  The result carries the state of
    [row], which the caller keeps a reference to. *)
Definition push_data (row : row_buffer) (i : Z) (val : option string)
  : row_buffer * result Z :=
  match val with
  | None => (row, Raise AssertionError)
  | Some _ =>
    let '(row1, i1, pending) := push_data_loop row i in
    match pending with
    | Some IndexError | None =>
      let '(row2, r) := row_setitem row1 i1 val in
      (row2, let! _ := r in Ok i1)
    | Some e => (row1, Raise e)
    end
  end.

(** Whether the [except IndexError] handler of [push_data] is entered. *)
Definition push_data_handler_entered (row : row_buffer) (i : Z) : bool :=
  match push_data_loop row i with
  | (_, _, Some IndexError) => true
  | _ => false
  end.

(** ** String helpers of the table extractor *)

(** [s.rstrip(chars)] *)
Fixpoint rstrip (chars : list ascii) (s : string) : string :=
  match s with
  | EmptyString => EmptyString
  | String c t =>
    match rstrip chars t with
    | EmptyString =>
      if bool_decide (c ∈ chars) then EmptyString else String c EmptyString
    | t' => String c t'
    end
  end.

Fixpoint lstrip (chars : list ascii) (s : string) : string :=
  match s with
  | EmptyString => EmptyString
  | String c t => if bool_decide (c ∈ chars) then lstrip chars t else s
  end.

Definition whitespace : list ascii :=
  [" "; "009"; "010"; "011"; "012"; "013"]%char.

Definition digit_value (c : ascii) : option Z :=
  let n := Z.of_nat (nat_of_ascii c) in
  if (48 <=? n) && (n <=? 57) then Some (n - 48) else None.

Fixpoint digits_value (acc : Z) (s : string) : option Z :=
  match s with
  | EmptyString => Some acc
  | String c t =>
    match digit_value c with
    | Some d => digits_value (10 * acc + d) t
    | None => None
    end
  end.

Definition unsigned_value (s : string) : result Z :=
  match s with
  | EmptyString => Raise ValueError
  | _ => match digits_value 0 s with
         | Some n => Ok n
         | None => Raise ValueError
         end
  end.

(** [int(s)] on a string: surrounding whitespace, an optional sign and
    ASCII decimal digits; anything else raises ValueError. *)
Definition py_int (s : string) : result Z :=
  match lstrip whitespace (rstrip whitespace s) with
  | String "-" d => let! n := unsigned_value d in Ok (- n)
  | String "+" d => unsigned_value d
  | d => unsigned_value d
  end.

(** ** The HTML table, as the selectors present it

    [table.css('tr')] is the list of rows and [row.css('th, td')] the list
    of cells of a row, both in document order.  Of a cell the code reads its
    tag, its first text node ([extract_first], [None] when there is none)
    and its [rowspan] and [colspan] attributes. *)

Inductive tag : Type := th | td.

Record cell : Type := Cell {
  cell_tag : tag;
  cell_text : option string;
  cell_rowspan : option string;
  cell_colspan : option string
}.

Abbreviation html_table := (list (list cell)).

(** [value = cell.css('::text').extract_first()], [''] for [None], then
    [rstrip('\r\n\t ')]. *)
Definition cell_value (c : cell) : string :=
  rstrip ["013"; "010"; "009"; " "]%char (default EmptyString (cell_text c)).

(** [int(attr or 1)]: [None] and [''] are falsy. *)
Definition span (attr : option string) : result Z :=
  match attr with
  | None | Some EmptyString => Ok 1
  | Some s => py_int s
  end.

Definition is_header_cell (c : cell) : bool :=
  match cell_tag c with th => true | td => false end.

(** ** table_data *)

Fixpoint foldM {A B : Type} (f : A -> B -> result A) (a : A) (l : list B)
  : result A :=
  match l with
  | [] => Ok a
  | b :: l' => let! a' := f a b in foldM f a' l'
  end.

(** [enumerate(l)] *)
Definition enumerate {A : Type} (l : list A) : list (Z * A) :=
  zip (seqZ 0 (len l)) l.

(** A row buffer is an object held by the grid: a mutation of the row
    obtained from [data[r]] is a mutation of the grid's slot. *)
Definition store_row (data : grid) (r : Z) (row : row_buffer) : grid :=
  <[Z.to_nat (norm_index data r) := row]> data.

(** [data[r][c] = value] *)
Definition grid_setitem (data : grid) (r c : Z) (value : option string)
  : result grid :=
  let '(data1, got) := data_getitem data r in
  let! row := got in
  let '(row1, done) := row_setitem row c value in
  let! _ := done in
  Ok (store_row data1 r row1).

(** [for di in range(rowspan): for dj in range(colspan):
       data[i + di][j + dj] = value] *)
Definition fill_rect (data : grid) (i j : Z) (value : string)
    (rowspan colspan : Z) : result grid :=
  foldM (fun data di =>
           foldM (fun data dj =>
                    grid_setitem data (i + di) (j + dj) (Some value))
                 data (range colspan))
        data (range rowspan).

(** The body of [for cell in row.css('th, td')], on the loop state
    [(data, j, is_header_row)]. *)
Definition place_cell (i : Z) (st : grid * Z * bool) (c : cell)
  : result (grid * Z * bool) :=
  let '(data, j, is_header_row) := st in
  let value := cell_value c in
  let! rowspan := span (cell_rowspan c) in
  let! colspan := span (cell_colspan c) in
  let is_header_row := if is_header_cell c then is_header_row else false in
  let '(data, got) := data_getitem data i in
  let! row := got in
  let '(row, pushed) := push_data row j (Some value) in
  let! j := pushed in
  let data := store_row data i row in
  let! data := fill_rect data i j value rowspan colspan in
  Ok (data, j + 1, is_header_row).

(** The body of [for (i, row) in enumerate(table.css('tr'))], on the loop
    state [(data, header_count)]. *)
Definition table_row (st : grid * Z) (irow : Z * list cell)
  : result (grid * Z) :=
  let '(data, header_count) := st in
  let '(i, row) := irow in
  let! (data, _, is_header_row) := foldM (place_cell i) (data, 0, true) row in
  Ok (data, if is_header_row : bool then header_count + 1 else header_count).

Definition table_data (table : html_table) : result (grid * Z) :=
  foldM table_row ([], 0) (enumerate table).

(** ** parse (the metrics walker)

    A [dict] is a [gmap]; [dict(pairs)] and a dict comprehension let a
    later pair override an earlier one with the same key. *)

Definition dict_of_pairs {K V : Type} `{Countable K} (pairs : list (K * V))
  : gmap K V :=
  foldl (fun m kv => <[kv.1 := kv.2]> m) ∅ pairs.

(** A metrics row: header text to cell text.  A grid slot that no cell
    covers holds [None], as key or as value. *)
Abbreviation metrics_row := (gmap (option string) (option string)).

(** Truth value of a grid slot: [None] and [''] are falsy. *)
Definition truthy (v : option string) : bool :=
  match v with
  | Some (String _ _) => true
  | _ => false
  end.


(** [row_data = dict(zip(header, row))] *)
Definition row_data (header row : row_buffer) : metrics_row :=
  dict_of_pairs (zip header row).





(** ** URL query codec *)

Definition newline : ascii := "010"%char.

(** The ways [.*] can match at the start of [s], in the order a greedy
    quantifier tries them (longest first): the text matched and the rest.
    Without DOTALL the dot matches any character but a newline. *)
Fixpoint dot_star (s : string) : list (string * string) :=
  match s with
  | EmptyString => [(EmptyString, EmptyString)]
  | String c t =>
    if bool_decide (c = newline) then [(EmptyString, s)]
    else map (fun mr => (String c mr.1, mr.2)) (dot_star t)
         ++ [(EmptyString, s)]
  end.

(** [$] without MULTILINE: the end of the string, or just before a newline
    that ends the string. *)
Definition at_dollar (rest : string) : bool :=
  match rest with
  | EmptyString => true
  | String c EmptyString => bool_decide (c = newline)
  | _ => false
  end.

(** [re.search(pattern, url, flags=re.I)] for the pattern of [split_url]:
    [^], the group [base] matching [.*], a literal question mark, the group
    [params] matching [.*], and [$].  The result is the two groups of the
    first match in backtracking order.  [^] anchors the search at the start
    of the string; IGNORECASE changes nothing, the only literal being the
    question mark. *)
Definition params_matches (base rest : string) : list (string * string) :=
  flat_map (fun pr => if at_dollar pr.2 then [(base, pr.1)] else [])
           (dot_star rest).

Definition url_matches (url : string) : list (string * string) :=
  flat_map (fun br =>
              match br.2 with
              | String c rest =>
                if bool_decide (c = "?"%char) then params_matches br.1 rest
                else []
              | EmptyString => []
              end)
           (dot_star url).

Definition search_base_params (url : string) : option (string * string) :=
  head (url_matches url).

(** [s.split(sep)] for a one-character separator. *)
Fixpoint split (sep : ascii) (s : string) : list string :=
  match s with
  | EmptyString => [EmptyString]
  | String c t =>
    if bool_decide (c = sep) then EmptyString :: split sep t
    else match split sep t with
         | piece :: pieces => String c piece :: pieces
         | [] => [String c EmptyString]
         end
  end.

(** [for (k, v) in (p.split('=') for p in ...)]: unpacking anything but two
    pieces raises ValueError. *)
Definition key_value (p : string) : result (string * string) :=
  match split "=" p with
  | [k; v] => Ok (k, v)
  | _ => Raise ValueError
  end.

Fixpoint mapM {A B : Type} (f : A -> result B) (l : list A)
  : result (list B) :=
  match l with
  | [] => Ok []
  | a :: l' => let! b := f a in let! bs := mapM f l' in Ok (b :: bs)
  end.

(** [split_url]: [match.group] on a failed search is an attribute access
    on [None]. *)
Definition split_url (url : string) : result (string * gmap string string) :=
  match search_base_params url with
  | None => Raise AttributeError
  | Some (base, params) =>
    let! pairs := mapM key_value (split "&" params) in
    Ok (base, dict_of_pairs pairs)
  end.

(** [join_url(base, params)], on [params.items()] in the dict's iteration
    order. *)
Definition join_url (base : string) (items : list (string * string))
  : string :=
  base +:+ "?" +:+
  String.concat "&" (map (fun kv => kv.1 +:+ "=" +:+ kv.2) items).

(** ** Feed files and the csv action *)

(** A product record as [json.load] returns it: the string-valued entries
    ([id], [name], [url] and, when the page had an image, [image_url]) and
    the [details] mapping. *)
Record item : Type := Item {
  item_fields : gmap string string;
  item_details : gmap string string
}.

(** A file is a JSON feed or a csv file.  [csv.DictWriter] writes one cell
    per field name in every row, so a written row is a map over the field
    names; the column order, the iteration order of the [headers] set, is
    not modelled. *)
Inductive file : Type :=
| JsonFeed (data : list item)
| CsvFile (fieldnames : gset string) (rows : list (gmap string string)).

Abbreviation filesystem := (gmap string file).

(** The class attribute [BoltDepotSpider.FEED_URI] applied with [%] to
    [{'prefix': prefix, 'name': name}]. *)
Definition feed_filename (prefix name : string) : string :=
  prefix +:+ "scrape-" +:+ name +:+ ".json".

(** ["%s.csv" % os.path.splitext(feed_json)[0]] for such a file name. *)
Definition feed_csv_filename (prefix name : string) : string :=
  prefix +:+ "scrape-" +:+ name +:+ ".csv".

(** The names bound in the module namespace when the action blocks start:
    the imports, the functions and classes, and the module-level
    assignments.  [FEED_URI] is bound in the body of the class
    [BoltDepotSpider], which makes it an attribute of the class and not a
    name of the module. *)
Definition module_names : gset string :=
  list_to_set
    ["os"; "inspect"; "scrapy"; "re"; "argparse"; "logging"; "fnmatch";
     "json"; "csv"; "split_url"; "join_url"; "BoltDepotSpider";
     "BoltDepotProductSpider"; "WoodScrewSpider"; "BoltSpider"; "NutSpider";
     "ThreadedRodSpider"; "SPIDERS"; "SPIDER_MAP"; "GrowingList";
     "BoltDepotDataSpider"; "DataWoodScrewDiam"; "DataUSBoltThreadLen";
     "DataUSThreadPerInch"; "DataMetricThreadPitch";
     "DataMetricBoltHeadSize"; "METRICS_SPIDERS"; "DEFAULT_PREFIX";
     "parser"; "VALID_ACTIONS"; "action_type"; "catalogues_list_type";
     "args"].

(** The names the scrape block binds on top of those. *)
Definition scrape_names : gset string :=
  list_to_set
    ["feed_names"; "cls"; "name"; "feed_filename"; "process";
     "metrics_spider"].

(** Evaluating a bare name at module level. *)
Definition load_name (namespace : gset string) (name : string)
  : result unit :=
  if decide (name ∈ namespace) then Ok tt else Raise (NameError name).

Definition KEYS : gset string :=
  list_to_set ["url"; "image_url"; "name"; "id"].

(** [headers = set(KEYS); for item in data: headers |= set(item['details'].keys())] *)
Definition csv_headers (data : list item) : gset string :=
  foldl (fun headers it => headers ∪ dom (item_details it)) KEYS data.

(** [{k: item[k] for k in KEYS}]: a missing key raises KeyError. *)
Definition core_fields (it : item) : result (gmap string string) :=
  if decide (KEYS ⊆ dom (item_fields it))
  then Ok (filter (fun kv => kv.1 ∈ KEYS) (item_fields it))
  else Raise KeyError.

(** [writer.writerow(row_data)]: a key that is no field name raises
    ValueError; a field name that is no key is written as [''] (the
    writer's [restval]). *)
Definition writerow (fieldnames : gset string) (row : gmap string string)
  : result (gmap string string) :=
  if decide (dom row ⊆ fieldnames)
  then Ok (set_to_map (fun k => (k, default EmptyString (row !! k)))
                      fieldnames)
  else Raise ValueError.

(** The body of [for item in data] in the write loop.  [utf8encoded] is
    the identity on byte strings; [update] lets the core fields override
    the details. *)
Definition csv_row (fieldnames : gset string) (it : item)
  : result (gmap string string) :=
  let row_data := item_details it in
  let! core := core_fields it in
  writerow fieldnames (core ∪ row_data).

(** The rows written before the loop ends or raises. *)
Fixpoint csv_rows (fieldnames : gset string) (data : list item)
  : list (gmap string string) * result unit :=
  match data with
  | [] => ([], Ok tt)
  | it :: data' =>
    match csv_row fieldnames it with
    | Ok row => let '(rows, r) := csv_rows fieldnames data' in (row :: rows, r)
    | Raise e => ([], Raise e)
    end
  end.

(** The body of [for name in args.catalogues] of the csv block. *)
Definition csv_catalogue (namespace : gset string) (prefix name : string)
    (fs : filesystem) : filesystem * result unit :=
  match load_name namespace "FEED_URI" with
  | Raise e => (fs, Raise e)
  | Ok _ =>
    match fs !! feed_filename prefix name with
    | None => (fs, Raise IOError)
    | Some (CsvFile _ _) => (fs, Raise ValueError)
    | Some (JsonFeed data) =>
      let headers := csv_headers data in
      let '(rows, r) := csv_rows headers data in
      (<[feed_csv_filename prefix name := CsvFile headers rows]> fs, r)
    end
  end.

Fixpoint csv_action (namespace : gset string) (prefix : string)
    (catalogues : list string) (fs : filesystem) : filesystem * result unit :=
  match catalogues with
  | [] => (fs, Ok tt)
  | name :: catalogues' =>
    match csv_catalogue namespace prefix name fs with
    | (fs', Ok _) => csv_action namespace prefix catalogues' fs'
    | (fs', Raise e) => (fs', Raise e)
    end
  end.

(** ** Action sequencing *)

Definition VALID_ACTIONS : list string := ["scrape"; "csv"; "build"].

(** [str.lower] on ASCII. *)
Definition lower_char (c : ascii) : ascii :=
  let n := nat_of_ascii c in
  if ((65 <=? n)%nat && (n <=? 90)%nat)%bool then ascii_of_nat (n + 32) else c.

Fixpoint lower (s : string) : string :=
  match s with
  | EmptyString => EmptyString
  | String c t => String (lower_char c) (lower t)
  end.

(** [action_type]: the converter argparse applies to every positional
    token.  Its exception makes argparse report a usage error. *)
Definition action_type (value : string) : option string :=
  let value := lower value in
  if decide (value ∈ VALID_ACTIONS) then Some value else None.

(** The parsed command line: [args.actions] (converted), [args.prefix],
    [args.onlymetrics], [args.list] and [args.catalogues]. *)
Record args : Type := Args {
  args_actions : list string;
  args_prefix : string;
  args_onlymetrics : bool;
  args_list : bool;
  args_catalogues : list string
}.

Inductive phase : Type := Scrape | Csv | Build.

Inductive outcome : Type :=
| Completed
| Exit (code : Z)
| Uncaught (e : exn).

Definition METRICS_SPIDERS : list string :=
  ["d-woodscrew-diam"; "d-us-bolt-thread-len"; "d-us-tpi";
   "d-met-threadpitch"; "d-met-boltheadsize"].

Section Sequencer.
(** The crawler process: it runs the spiders registered with
    [process.crawl] and writes their feed files.  It belongs to the
    crawling framework. *)
Variable crawl : list string -> filesystem -> filesystem * result unit.

(** [feed_names], also the list of the spiders crawled. *)
Definition feed_names (a : args) : list string :=
  (if args_onlymetrics a then [] else args_catalogues a)
  ++ METRICS_SPIDERS.

Definition scrape_action (a : args) (fs : filesystem)
  : filesystem * result unit :=
  let cleared :=
    foldl (fun fs name => delete (feed_filename (args_prefix a) name) fs)
          fs (feed_names a) in
  crawl (feed_names a) cleared.

(** [raise NotImplementedError("I'm getting there")] *)
Definition build_action (fs : filesystem) : filesystem * result unit :=
  (fs, Raise NotImplementedError).

(** The state between the action blocks: the phases entered so far,
    the file system, and the exception that ended the run, if any. *)
Record run : Type := Run {
  run_phases : list phase;
  run_fs : filesystem;
  run_raised : option exn
}.

(** [if '<action>' in args.actions: <body>], reached only when nothing
    raised before. *)
Definition block (a : args) (action : string) (p : phase)
    (body : filesystem -> filesystem * result unit) (r : run) : run :=
  match run_raised r with
  | Some _ => r
  | None =>
    if decide (action ∈ args_actions a) then
      match body (run_fs r) with
      | (fs, Ok _) => Run (run_phases r ++ [p]) fs None
      | (fs, Raise e) => Run (run_phases r ++ [p]) fs (Some e)
      end
    else r
  end.

(** The namespace the csv block sees: the scrape block, when it ran,
    has bound its names. *)
Definition namespace_after (r : run) : gset string :=
  if decide (run_phases r = []) then module_names
  else module_names ∪ scrape_names.

(** The module body from [args = parser.parse_args()] on. *)
Definition main (a : args) (fs : filesystem) : run * outcome :=
  if args_list a then (Run [] fs None, Exit 0)
  else if decide (args_actions a = []) then (Run [] fs None, Exit 1)
  else
    let r0 := Run [] fs None in
    let r1 := block a "scrape" Scrape (scrape_action a) r0 in
    let r2 := block a "csv" Csv
                (csv_action (namespace_after r1) (args_prefix a)
                            (args_catalogues a)) r1 in
    let r3 := block a "build" Build build_action r2 in
    (r3, match run_raised r3 with
         | Some e => Uncaught e
         | None => Completed
         end).

(** The command line: every positional token goes through
    [action_type]; an invalid one ends the process with a usage error
    (exit status 2) before anything runs. *)
Definition command_line (tokens : list string) (prefix : string)
    (onlymetrics list_flag : bool) (catalogues : list string)
    (fs : filesystem) : run * outcome :=
  match mapM (fun t => match action_type t with
                       | Some v => Ok v
                       | None => Raise ValueError
                       end) tokens with
  | Ok actions => main (Args actions prefix onlymetrics list_flag catalogues) fs
  | Raise _ => (Run [] fs None, Exit 2)
  end.
End Sequencer.




(** ** The testlabel decorator ([tests/base.py])

    Classes are objects in a store.  Of a class the decorator touches the
    entry [_labels] of its own [__dict__]; [getattr] looks a name up along
    the method resolution order. *)

Module TestLabel.
Abbreviation class_id := positive.

Record pyclass : Type := PyClass {
  (** [cls.__mro__] after [cls] itself *)
  cls_mro_tail : list class_id;
  (** [cls.__dict__.get('_labels')] *)
  cls_labels : option (gset string)
}.

Abbreviation class_store := (gmap class_id pyclass).

Definition own_labels (h : class_store) (c : class_id)
  : option (gset string) :=
  k ← h !! c; cls_labels k.

(** [getattr(cls, '_labels', dflt)]: the first class of the MRO whose
    own dict has the entry. *)
Definition getattr_labels (h : class_store) (cls : class_id)
    (dflt : gset string) : gset string :=
  match h !! cls with
  | None => dflt
  | Some k =>
    default dflt
      (head (omap (own_labels h) (cls :: cls_mro_tail k)))
  end.

(** [cls._labels = value]: an entry of the class's own dict. *)
Definition setattr_labels (h : class_store) (cls : class_id)
    (value : gset string) : class_store :=
  alter (fun k => PyClass (cls_mro_tail k) (Some value)) cls h.

(** The decorator built from [labels], applied to [cls] (the function
    [inner]): the store after the call and the object returned. *)
Definition testlabel (labels : list string) (h : class_store)
    (cls : class_id) : class_store * class_id :=
  let value := list_to_set labels ∪ getattr_labels h cls ∅ in
  (setattr_labels h cls value, cls).
End TestLabel.

(** ** Vocabulary of the statements *)

(** Slot [k] of a row buffer is free: it holds [None], or it lies beyond
    the end, where the buffer grows a [None] on access. *)
Definition free_slot (row : row_buffer) (k : Z) : bool :=
  match row !! Z.to_nat k with
  | Some (Some _) => false
  | _ => true
  end.

(** The content of grid position [(r, c)], when the grid reaches it. *)
Definition grid_at (data : grid) (r c : Z) : option (option string) :=
  row ← data !! Z.to_nat r; row !! Z.to_nat c.





(** [c] occurs in [s]. *)
Fixpoint occurs (c : ascii) (s : string) : bool :=
  match s with
  | EmptyString => false
  | String c' t => bool_decide (c' = c) || occurs c t
  end.

(** A key or a value that [join_url] can carry: none of [?], [&], [=]. *)
Definition plain (s : string) : bool :=
  negb (occurs "?" s) && negb (occurs "&" s) && negb (occurs "=" s).

(** The positions of the rectangle anchored at [(i, j)]. *)
Definition in_rect (i j rowspan colspan : Z) (r c : nat) : Prop :=
  i <= Z.of_nat r < i + rowspan /\ j <= Z.of_nat c < j + colspan.

(** What a block of writes of one value leaves behind, relative to the
    set [W] of the positions written. *)
Definition writes_only (W : nat -> nat -> Prop) (v : string)
    (data data' : grid) : Prop :=
  (forall r' c', grid_at data r' c' = Some (Some v) ->
                 grid_at data' r' c' = Some (Some v))
  /\ (forall r' c' x, ~ W (Z.to_nat r') (Z.to_nat c') ->
                      grid_at data r' c' = Some x ->
                      grid_at data' r' c' = Some x).

(** The positions a cell placed at [(i, j)] writes: its slot and its
    rectangle. *)
Definition cell_writes (i j rowspan colspan : Z) (r c : nat) : Prop :=
  (r = Z.to_nat i /\ c = Z.to_nat j) \/ in_rect i j rowspan colspan r c.


(** A string fit for [join_url]: plain and without a newline. *)
Definition url_safe (s : string) : bool :=
  plain s && negb (occurs newline s).


(** ** parse_product_detail (the product walker)

    Of a detail page the code reads the URL, the heading (the first text
    node of the title, [None] when there is none), for every row of the
    property table the first text node of its name cell and of its value
    cell, and the [src] attribute of the product image. *)

Record detail_page : Type := DetailPage {
  page_url : string;
  page_heading : option string;
  page_rows : list (option string * option string);
  page_image : option string
}.

(** The values of the yielded dict: [None], a string, or the [details]
    mapping. *)
Inductive pyvalue : Type :=
| PyNone
| PyStr (s : string)
| PyDict (d : gmap string string).

Abbreviation product_data := (gmap string pyvalue).

(** The body of [for row in detail_table.css('tr')]:
    [if key and value: details[key] = value]. *)
Definition add_detail (details : gmap string string)
    (row : option string * option string) : gmap string string :=
  match row with
  | (Some key, Some value) =>
    if truthy (Some key) && truthy (Some value) then <[key := value]> details
    else details
  | _ => details
  end.

Definition page_details (rows : list (option string * option string))
  : gmap string string :=
  foldl add_detail ∅ rows.

Definition heading_value (heading : option string) : pyvalue :=
  match heading with
  | Some h => PyStr h
  | None => PyNone
  end.

(** [parse_product_detail]: the record it yields.  [split_url] runs before
    the table is read; [url_params['product']] raises KeyError when the
    query has no such parameter. *)
Definition parse_product_detail (page : detail_page) : result product_data :=
  let! (url_base, url_params) := split_url (page_url page) in
  let details := page_details (page_rows page) in
  let! id := match url_params !! "product" with
             | Some v => Ok v
             | None => Raise KeyError
             end in
  let product_data : product_data :=
    <["id" := PyStr id]>
      (<["name" := heading_value (page_heading page)]>
         (<["url" := PyStr (page_url page)]>
            {["details" := PyDict details]})) in
  Ok (match page_image page with
      | Some image_url =>
        if truthy (Some image_url)
        then <["image_url" := PyStr image_url]> product_data
        else product_data
      | None => product_data
      end).

(** The record as the csv block reads it back from the feed, when the
    page had a heading: its string-valued entries and its details. *)
Definition item_of_product (pd : product_data) : item :=
  Item (omap (fun v => match v with PyStr s => Some s | _ => None end) pd)
       (match pd !! "details" with
        | Some (PyDict d) => d
        | _ => ∅
        end).

(** ** The catalogue registry and the [--catalogues] argument *)

(** [SPIDERS]: the [name] and the [start_urls] of each product spider. *)
Definition SPIDERS : list (string * list string) :=
  [("woodscrews",
    ["https://www.boltdepot.com/Wood_screws_Phillips_flat_head.aspx";
     "https://www.boltdepot.com/Wood_screws_Slotted_flat_head.aspx"]);
   ("bolts",
    ["https://www.boltdepot.com/Hex_bolts_2.aspx";
     "https://www.boltdepot.com/Metric_hex_bolts_2.aspx"]);
   ("nuts",
    ["https://www.boltdepot.com/Hex_nuts.aspx";
     "https://www.boltdepot.com/Square_nuts.aspx";
     "https://www.boltdepot.com/Metric_hex_nuts.aspx"]);
   ("threaded-rods",
    ["https://www.boltdepot.com/Threaded_rod.aspx";
     "https://www.boltdepot.com/Metric_threaded_rod.aspx"])].

(** [SPIDER_MAP = {cls.name: cls for cls in SPIDERS}] *)
Definition SPIDER_MAP : gmap string (list string) := dict_of_pairs SPIDERS.

Section Catalogues.
(** [fnmatch name pat]: whether the shell pattern [pat] matches [name], as
    the library module [fnmatch] decides it. *)
Variable fnmatch : string -> string -> bool.

(** [set(fnmatch.filter(names, pat))] *)
Definition fnmatch_filter (names : gset string) (pat : string)
  : gset string :=
  filter (fun name => fnmatch name pat = true) names.

(** [catalogues_list_type]: [sorted] orders strings lexicographically. *)
Definition catalogues_list_type (value : string) : list string :=
  let catalogues_all := dom SPIDER_MAP in
  let catalogues :=
    foldl (fun catalogues filter_str =>
             catalogues ∪ fnmatch_filter catalogues_all filter_str)
          ∅ (split "," value) in
  merge_sort String.le (elements catalogues).
End Catalogues.

(** ** suppress_stdout_stderr ([tests/base.py])

    The process's descriptor table maps an open descriptor to what it
    refers to.  [os.open] and [os.dup] return the lowest unused
    descriptor; a call on a descriptor that is not open fails (OSError),
    which is [None] here.  No limit on the number of descriptors is
    modelled. *)

Module SuppressOutput.
Section SuppressOutput.
Context {F : Type} (devnull : F).

Definition lowest_free (t : gmap nat F) : nat :=
  match list_find (fun n => n ∉ dom t) (seq 0 (S (size t))) with
  | Some (_, n) => n
  | None => S (size t)
  end.

(** [os.open(os.devnull, os.O_RDWR)] *)
Definition os_open_devnull (t : gmap nat F) : gmap nat F * nat :=
  let fd := lowest_free t in (<[fd := devnull]> t, fd).

(** [os.dup(fd)] *)
Definition os_dup (fd : nat) (t : gmap nat F) : option (gmap nat F * nat) :=
  f ← t !! fd; Some (<[lowest_free t := f]> t, lowest_free t).

(** [os.dup2(fd, fd2)] *)
Definition os_dup2 (fd fd2 : nat) (t : gmap nat F) : option (gmap nat F) :=
  f ← t !! fd; Some (<[fd2 := f]> t).

(** [os.close(fd)] *)
Definition os_close (fd : nat) (t : gmap nat F) : option (gmap nat F) :=
  _ ← t !! fd; Some (delete fd t).

(** The attributes of a [suppress_stdout_stderr] object. *)
Record suppressor : Type := Suppressor {
  null_stdout : nat;
  null_stderr : nat;
  saved_stdout : nat;
  saved_stderr : nat
}.

(** [__init__] *)
Definition init (t : gmap nat F) : option (gmap nat F * suppressor) :=
  let '(t, null_out) := os_open_devnull t in
  let '(t, null_err) := os_open_devnull t in
  '(t, saved_out) ← os_dup 1 t;
  '(t, saved_err) ← os_dup 2 t;
  Some (t, Suppressor null_out null_err saved_out saved_err).

(** [__enter__] *)
Definition enter (self : suppressor) (t : gmap nat F) : option (gmap nat F) :=
  t ← os_dup2 (null_stdout self) 1 t;
  os_dup2 (null_stderr self) 2 t.

(** [__exit__] *)
Definition exit (self : suppressor) (t : gmap nat F) : option (gmap nat F) :=
  t ← os_dup2 (saved_stdout self) 1 t;
  t ← os_dup2 (saved_stderr self) 2 t;
  t ← os_close (null_stdout self) t;
  t ← os_close (null_stderr self) t;
  t ← os_close (saved_stdout self) t;
  os_close (saved_stderr self) t.
End SuppressOutput.
End SuppressOutput.

(** ** CQPartsTest.assertAlmostEqual ([tests/base.py])

    [as_sequence x] is the list of the elements of [x] when [x] is a tuple
    or a list; [base] is [unittest.TestCase.assertAlmostEqual] with the
    [places], [msg] and [delta] of the call. *)

Section AlmostEqual.
Context {V : Type} (as_sequence : V -> option (list V))
        (base : V -> V -> result unit).

Definition assertAlmostEqual (first second : V) : result unit :=
  match as_sequence first, as_sequence second with
  | Some xs, Some ys =>
    if decide (length xs = length ys)
    then foldM (fun _ ab => base ab.1 ab.2) tt (zip xs ys)
    else Raise ValueError
  | _, _ => base first second
  end.
End AlmostEqual.

(** ** Vocabulary of the further statements *)

(** The last character of a string. *)
Fixpoint last_char (s : string) : option ascii :=
  match s with
  | EmptyString => None
  | String c EmptyString => Some c
  | String _ t => last_char t
  end.

(** The characters [table_data] strips from the end of a cell's text. *)
Definition stripped : list ascii := ["013"; "010"; "009"; " "]%char.

(** Every character of [s] is in [chars]. *)
Fixpoint only_chars (chars : list ascii) (s : string) : bool :=
  match s with
  | EmptyString => true
  | String c t => bool_decide (c ∈ chars) && only_chars chars t
  end.

(** The number of occurrences of [c] in [s]. *)
Fixpoint count_char (c : ascii) (s : string) : nat :=
  match s with
  | EmptyString => 0
  | String c' t => (if bool_decide (c' = c) then 1 else 0) + count_char c t
  end.

(** Every string held by the grid satisfies [P]. *)
Definition slot_from (P : string -> Prop) (slot : option string) : Prop :=
  match slot with
  | Some s => P s
  | None => True
  end.

Definition grid_from (P : string -> Prop) (data : grid) : Prop :=
  Forall (Forall (slot_from P)) data.

(** * Properties *)

(** ** GrowingList *)

Section GrowingListFacts.
Context {T : Type} (d : T).
Implicit Types (self : list T) (index : Z).

Lemma len_nonneg self : 0 <= len self.
Proof. unfold len. lia. Qed.

Lemma grow_eq self index :
  GrowingList.grow d self index
  = self ++ replicate (Z.to_nat (index + 1 - len self)) d.
Proof.
  unfold GrowingList.grow. destruct (Z.leb_spec (len self) index); [done |].
  replace (Z.to_nat (index + 1 - len self)) with 0%nat by lia.
  by rewrite app_nil_r.
Qed.

Lemma len_grow self index :
  len (GrowingList.grow d self index) = Z.max (len self) (index + 1).
Proof.
  rewrite grow_eq. unfold len. rewrite length_app, length_replicate. lia.
Qed.

Lemma grow_lookup_old self index (n : nat) :
  (n < length self)%nat ->
  GrowingList.grow d self index !! n = self !! n.
Proof. intros Hn. rewrite grow_eq. by apply lookup_app_l. Qed.

Lemma grow_lookup_new self index (n : nat) :
  (length self <= n)%nat -> Z.of_nat n <= index ->
  GrowingList.grow d self index !! n = Some d.
Proof.
  intros Hn Hi. rewrite grow_eq, lookup_app_r by done.
  apply lookup_replicate. split; [done |]. unfold len. lia.
Qed.

Lemma list_getitem_ok (l : list T) index :
  - len l <= index < len l ->
  list_getitem l index = default (Raise IndexError) (Ok <$> l !! Z.to_nat (norm_index l index))
  /\ is_Some (l !! Z.to_nat (norm_index l index)).
Proof.
  intros Hr. unfold list_getitem.
  assert (0 <= norm_index l index < len l) as Hn.
  { unfold norm_index. destruct (Z.ltb_spec index 0); lia. }
  destruct (Z.ltb_spec (norm_index l index) 0); [lia |].
  destruct (Z.leb_spec (len l) (norm_index l index)); [lia |]. simpl.
  destruct (l !! Z.to_nat (norm_index l index)) as [x |] eqn:E.
  - eauto.
  - apply lookup_ge_None in E. unfold len in *. lia.
Qed.

Lemma list_getitem_raise (l : list T) index :
  index < - len l \/ len l <= index ->
  list_getitem l index = Raise IndexError.
Proof.
  intros Hr. unfold list_getitem, norm_index.
  pose proof (len_nonneg l).
  destruct (Z.ltb_spec index 0).
  - destruct (Z.ltb_spec (index + len l) 0); [done | lia].
  - destruct (Z.ltb_spec index 0); [lia |].
    destruct (Z.leb_spec (len l) index); [done | lia].
Qed.

Lemma list_setitem_ok (l : list T) index (v : T) :
  - len l <= index < len l ->
  list_setitem l index v = Ok (<[Z.to_nat (norm_index l index) := v]> l).
Proof.
  intros Hr. unfold list_setitem.
  assert (0 <= norm_index l index < len l) as Hn.
  { unfold norm_index. destruct (Z.ltb_spec index 0); lia. }
  destruct (Z.ltb_spec (norm_index l index) 0); [lia |].
  by destruct (Z.leb_spec (len l) (norm_index l index)); [lia |].
Qed.

Lemma list_setitem_raise (l : list T) index (v : T) :
  index < - len l \/ len l <= index ->
  list_setitem l index v = Raise IndexError.
Proof.
  intros Hr. unfold list_setitem, norm_index.
  pose proof (len_nonneg l).
  destruct (Z.ltb_spec index 0).
  - destruct (Z.ltb_spec (index + len l) 0); [done | lia].
  - destruct (Z.ltb_spec index 0); [lia |].
    destruct (Z.leb_spec (len l) index); [done | lia].
Qed.

(** A non-negative index: the access succeeds on the grown list. *)
Lemma getitem_nonneg self index :
  0 <= index ->
  exists x,
    GrowingList.getitem d self index = (GrowingList.grow d self index, Ok x)
    /\ GrowingList.grow d self index !! Z.to_nat index = Some x.
Proof.
  intros Hi. unfold GrowingList.getitem.
  destruct (list_getitem_ok (GrowingList.grow d self index) index)
    as [Heq [x Hx]].
  { rewrite len_grow. pose proof (len_nonneg self). lia. }
  assert (norm_index (GrowingList.grow d self index) index = index) as Hn.
  { unfold norm_index. by destruct (Z.ltb_spec index 0); [lia |]. }
  rewrite Hn in *. exists x. rewrite Heq, Hx. done.
Qed.

Lemma setitem_nonneg self index (v : T) :
  0 <= index ->
  GrowingList.setitem d self index v
  = (<[Z.to_nat index := v]> (GrowingList.grow d self index), Ok tt).
Proof.
  intros Hi. unfold GrowingList.setitem.
  rewrite list_setitem_ok.
  - unfold norm_index. by destruct (Z.ltb_spec index 0); [lia |].
  - rewrite len_grow. pose proof (len_nonneg self). lia.
Qed.

(** A negative index below [-len]: nothing grows, the access raises. *)
Lemma getitem_below self index :
  index < - len self ->
  GrowingList.getitem d self index = (self, Raise IndexError).
Proof.
  intros Hi. pose proof (len_nonneg self).
  unfold GrowingList.getitem, GrowingList.grow.
  destruct (Z.leb_spec (len self) index); [lia |].
  rewrite list_getitem_raise; [done | lia].
Qed.

Lemma setitem_below self index (v : T) :
  index < - len self ->
  GrowingList.setitem d self index v = (self, Raise IndexError).
Proof.
  intros Hi. pose proof (len_nonneg self).
  unfold GrowingList.setitem, GrowingList.grow.
  destruct (Z.leb_spec (len self) index); [lia |].
  rewrite list_setitem_raise; [done | lia].
Qed.
End GrowingListFacts.

(** C2, as the code has it.  For every GrowingList and every index that
    is not below [-len], [get] and [set] do not raise: the list is first
    extended with the default factory's output up to the index (nothing is
    added when the index is inside the list), then [get] returns the slot,
    which is the default when the slot is new, and [set] stores the value
    in it.  An index below [-len], a negative index past the front, is not
    absorbed: both accesses raise IndexError and leave the list as it
    was. *)
Theorem growing_list_access {T : Type} (d : T) (self : list T) (index : Z)
    (value : T) :
  (- len self <= index ->
   let grown := self ++ replicate (Z.to_nat (index + 1 - len self)) d in
   (exists x, GrowingList.getitem d self index = (grown, Ok x)
              /\ (len self <= index -> x = d))
   /\ (exists self', GrowingList.setitem d self index value = (self', Ok tt)
                     /\ self' = <[Z.to_nat (norm_index grown index) := value]> grown
                     /\ len self' = Z.max (len self) (index + 1)
                     /\ list_getitem self' index = Ok value))
  /\ (index < - len self ->
      GrowingList.getitem d self index = (self, Raise IndexError)
      /\ GrowingList.setitem d self index value = (self, Raise IndexError)).
Proof.
  split.
  - intros Hlo grown. pose proof (len_nonneg self) as Hlen.
    assert (GrowingList.grow d self index = grown) as Hg by apply grow_eq.
    assert (len grown = Z.max (len self) (index + 1)) as Hlg.
    { rewrite <- Hg. apply len_grow. }
    assert (- len grown <= index < len grown) as Hr by lia.
    split.
    + destruct (list_getitem_ok grown index Hr) as [Heq [x Hx]].
      exists x. unfold GrowingList.getitem. rewrite Hg, Heq, Hx.
      split; [done |]. intros Hge.
      unfold norm_index in Hx. destruct (Z.ltb_spec index 0); [lia |].
      rewrite <- Hg, grow_lookup_new in Hx; [congruence | | lia].
      unfold len in Hge. lia.
    + unfold GrowingList.setitem. rewrite Hg, list_setitem_ok by done.
      eexists. split; [done |]. split; [done |].
      assert (0 <= norm_index grown index < len grown) as Hn.
      { unfold norm_index. destruct (Z.ltb_spec index 0); lia. }
      split.
      * unfold len. rewrite length_insert. exact Hlg.
      * destruct (list_getitem_ok (<[Z.to_nat (norm_index grown index) := value]> grown) index)
          as [Heq _].
        { unfold len. rewrite length_insert. exact Hr. }
        rewrite Heq.
        replace (norm_index (<[Z.to_nat (norm_index grown index) := value]> grown) index)
          with (norm_index grown index)
          by (unfold norm_index, len; by rewrite length_insert).
        rewrite list_lookup_insert_eq; [done |]. unfold len in Hn. lia.
  - intros Hlo. split; [by apply getitem_below | by apply setitem_below].
Qed.

Lemma growing_list_access_witness :
  (exists x, GrowingList.getitem (None : option string) [] 2
             = ([None; None; None], Ok x) /\ (len (@nil (option string)) <= 2 -> x = None))
  /\ GrowingList.getitem (Some "d") [Some "a"; Some "b"] (-3)
     = ([Some "a"; Some "b"], Raise IndexError).
Proof.
  split.
  - apply (proj1 (growing_list_access (None : option string) [] 2 None)).
    vm_compute. discriminate.
  - apply (proj2 (growing_list_access (Some "d") [Some "a"; Some "b"] (-3) None)).
    vm_compute. reflexivity.
Defined.

(** C2 as stated fails: reading index [-1] of an empty GrowingList, one
    step past the front, raises IndexError; so does writing there. *)
Lemma growing_list_front_raises :
  ~ (forall (self : list (option string)) (index : Z) (value : option string),
       is_ok (GrowingList.getitem None self index).2 = true
       /\ is_ok (GrowingList.setitem None self index value).2 = true).
Proof.
  intros H. destruct (H [] (-1) (Some "v")) as [Hget _].
  vm_compute in Hget. discriminate.
Qed.

(** ** push_data *)

Lemma push_data_loop_eq (row : row_buffer) (i : Z) :
  push_data_loop row i =
  match row_getitem row i with
  | (row', Ok (Some _)) => push_data_loop row' (i + 1)
  | (row', Ok None) => (row', i, None)
  | (row', Raise e) => (row', i, Some e)
  end.
Proof.
  apply (push_data_loop_elim
           (fun row i res =>
              res = match row_getitem row i with
                    | (row', Ok (Some _)) => push_data_loop row' (i + 1)
                    | (row', Ok None) => (row', i, None)
                    | (row', Raise e) => (row', i, Some e)
                    end)).
  - intros r j row' s e _ _. by rewrite e.
  - intros r j row' e _. by rewrite e.
  - intros r j row' e e1 _. by rewrite e1.
Qed.

Lemma free_slot_beyond (row : row_buffer) (k : Z) :
  len row <= k -> free_slot row k = true.
Proof.
  intros Hk. unfold free_slot. rewrite lookup_ge_None_2; [done |].
  unfold len in Hk. lia.
Qed.

(** From a non-negative start the loop stops, with no exception, at the
    first free slot; the row has grown to reach it. *)
Lemma push_data_loop_spec (n : nat) :
  forall (row : row_buffer) (i : Z),
    0 <= i -> (Z.to_nat (len row - i) <= n)%nat ->
    exists k,
      push_data_loop row i = (GrowingList.grow None row k, k, None)
      /\ i <= k
      /\ free_slot row k = true
      /\ (forall k', i <= k' < k -> free_slot row k' = false).
Proof.
  induction n as [| n IH]; intros row i Hi Hn.
  - (* i is at or beyond the end *)
    exists i. rewrite push_data_loop_eq. unfold row_getitem.
    destruct (getitem_nonneg None row i Hi) as [x [Hget Hx]].
    rewrite Hget. rewrite grow_lookup_new in Hx by (unfold len in *; lia).
    inversion Hx; subst x.
    repeat split; [lia | | intros; lia].
    apply free_slot_beyond. lia.
  - rewrite push_data_loop_eq. unfold row_getitem.
    destruct (getitem_nonneg None row i Hi) as [x [Hget Hx]].
    rewrite Hget.
    destruct (Z.leb_spec (len row) i) as [Hge | Hlt].
    + exists i. rewrite grow_lookup_new in Hx by (unfold len in *; lia).
      inversion Hx; subst x.
      repeat split; [lia | | intros; lia].
      by apply free_slot_beyond.
    + assert (GrowingList.grow None row i = row) as Hsame.
      { unfold GrowingList.grow. by destruct (Z.leb_spec (len row) i); [lia |]. }
      rewrite Hsame in *.
      destruct x as [s |].
      * destruct (IH row (i + 1)) as [k (Hk & Hik & Hfree & Hmin)]; [lia | lia |].
        exists k. repeat split; [done | lia | done |].
        intros k' Hk'. destruct (Z.eq_dec k' i) as [-> | Hne].
        -- unfold free_slot. by rewrite Hx.
        -- apply Hmin. lia.
      * exists i. rewrite Hsame.
        repeat split; [lia | | intros; lia].
        unfold free_slot. by rewrite Hx.
Qed.

(** What [push_data] does from a non-negative start. *)
Lemma push_data_spec (row : row_buffer) (i : Z) (val : string) :
  0 <= i ->
  exists k,
    push_data row i (Some val)
    = (<[Z.to_nat k := Some val]>
         (row ++ replicate (Z.to_nat (k + 1 - len row)) None), Ok k)
    /\ i <= k
    /\ free_slot row k = true
    /\ (forall k', i <= k' < k -> free_slot row k' = false)
    /\ push_data_handler_entered row i = false.
Proof.
  intros Hi.
  destruct (push_data_loop_spec (Z.to_nat (len row - i)) row i Hi)
    as [k (Hloop & Hik & Hfree & Hmin)]; [lia |].
  exists k. unfold push_data, push_data_handler_entered. rewrite Hloop.
  unfold row_setitem. rewrite setitem_nonneg by lia.
  assert (GrowingList.grow None (GrowingList.grow None row k) k
          = GrowingList.grow None row k) as Hidem.
  { unfold GrowingList.grow at 1.
    destruct (Z.leb_spec (len (GrowingList.grow None row k)) k) as [Hge |];
      [| done].
    rewrite len_grow in Hge. lia. }
  rewrite Hidem, grow_eq. done.
Qed.

(** C9.  For every row buffer, every start index [i >= 0] and every
    value that is not [None], [push_data] returns without raising; the
    index [k] it returns is the least one at or after [i] whose slot held
    [None] before the call (a slot beyond the end counts: the buffer grows
    a [None] there); the buffer afterwards is the old one, grown with
    [None] up to [k], with the value in slot [k]; and the IndexError
    handler is not entered. *)
Theorem push_data_first_free (row : row_buffer) (i : Z) (val : string) :
  0 <= i ->
  exists k,
    push_data row i (Some val)
    = (<[Z.to_nat k := Some val]>
         (row ++ replicate (Z.to_nat (k + 1 - len row)) None), Ok k)
    /\ i <= k
    /\ free_slot row k = true
    /\ (forall k', i <= k' < k -> free_slot row k' = false)
    /\ push_data_handler_entered row i = false.
Proof.
  intros Hi.
  (* the loop: it stops at the first free slot with nothing pending *)
  destruct (push_data_loop_spec (Z.to_nat (len row - i)) row i Hi)
    as [k (Hloop & Hik & Hfree & Hmin)]; [lia |].
  exists k. split; [| by unfold push_data_handler_entered; rewrite Hloop].
  (* the store: slot [k] exists after the loop, nothing grows again *)
  unfold push_data. rewrite Hloop.
  unfold row_setitem. rewrite setitem_nonneg by lia.
  replace (GrowingList.grow None (GrowingList.grow None row k) k)
    with (GrowingList.grow None row k).
  - by rewrite grow_eq.
  - unfold GrowingList.grow at 2.
    destruct (Z.leb_spec (len (GrowingList.grow None row k)) k) as [Hge |];
      [| done].
    rewrite len_grow in Hge. lia.
Qed.

Lemma push_data_first_free_witness :
  exists k,
    push_data [Some "a"; None; Some "c"] 0 (Some "x")
    = (<[Z.to_nat k := Some "x"]>
         ([Some "a"; None; Some "c"]
            ++ replicate (Z.to_nat (k + 1 - len [Some "a"; None; Some "c"])) None),
       Ok k)
    /\ 0 <= k
    /\ free_slot [Some "a"; None; Some "c"] k = true
    /\ (forall k', 0 <= k' < k -> free_slot [Some "a"; None; Some "c"] k' = false)
    /\ push_data_handler_entered [Some "a"; None; Some "c"] 0 = false.
Proof.
  apply (push_data_first_free [Some "a"; None; Some "c"] 0 "x"). lia.
Defined.

(** ** Writing into the grid *)

Lemma grid_at_grow (data : grid) (r r' c' : Z) (x : option string) :
  grid_at data r' c' = Some x ->
  grid_at (GrowingList.grow [] data r) r' c' = Some x.
Proof.
  unfold grid_at. intros H.
  destruct (data !! Z.to_nat r') as [row |] eqn:E; [| done].
  rewrite grow_lookup_old; [by rewrite E |].
  by apply lookup_lt_Some in E.
Qed.

Lemma grid_at_store (data : grid) (n : nat) (row : row_buffer) (r' c' : Z) :
  (n < length data)%nat ->
  grid_at (<[n := row]> data) r' c'
  = if decide (Z.to_nat r' = n) then row !! Z.to_nat c'
    else grid_at data r' c'.
Proof.
  intros Hn. unfold grid_at. destruct (decide (Z.to_nat r' = n)) as [-> | Hne].
  - by rewrite list_lookup_insert_eq.
  - by rewrite list_lookup_insert_ne.
Qed.

(** The row object behind [data[r]], for [r >= 0]. *)
Lemma data_getitem_nonneg (data : grid) (r : Z) :
  0 <= r ->
  exists row,
    data_getitem data r = (GrowingList.grow [] data r, Ok row)
    /\ GrowingList.grow [] data r !! Z.to_nat r = Some row
    /\ (forall c' x, grid_at data r c' = Some x -> row !! Z.to_nat c' = Some x).
Proof.
  intros Hr. destruct (getitem_nonneg [] data r Hr) as [row [Hget Hrow]].
  exists row. repeat split; [done | done |].
  intros c' x Hx. apply (grid_at_grow _ r) in Hx.
  unfold grid_at in Hx. by rewrite Hrow in Hx.
Qed.

Lemma store_row_nonneg (data : grid) (r : Z) (row : row_buffer) :
  0 <= r -> store_row data r row = <[Z.to_nat r := row]> data.
Proof.
  intros Hr. unfold store_row, norm_index.
  by destruct (Z.ltb_spec r 0); [lia |].
Qed.

(** [data[r][c] = v] with [r, c >= 0]: the position holds [v] afterwards
    and every other position keeps what it held. *)
Lemma grid_setitem_spec (data : grid) (r c : Z) (v : option string) :
  0 <= r -> 0 <= c ->
  exists data',
    grid_setitem data r c v = Ok data'
    /\ grid_at data' r c = Some v
    /\ (forall r' c' x,
          (Z.to_nat r', Z.to_nat c') <> (Z.to_nat r, Z.to_nat c) ->
          grid_at data r' c' = Some x -> grid_at data' r' c' = Some x).
Proof.
  intros Hr Hc. unfold grid_setitem.
  destruct (data_getitem_nonneg data r Hr) as [row (Hget & Hrow & Hold)].
  rewrite Hget. simpl. unfold row_setitem.
  rewrite setitem_nonneg by done. simpl.
  rewrite store_row_nonneg by done.
  eexists. split; [done |].
  pose proof (lookup_lt_Some _ _ _ Hrow) as Hlt.
  split.
  - rewrite grid_at_store by done. rewrite decide_True by done.
    apply list_lookup_insert_eq.
    pose proof (len_grow None row c) as Hl. unfold len in Hl. lia.
  - intros r' c' x Hne Hx. rewrite grid_at_store by done.
    destruct (decide (Z.to_nat r' = Z.to_nat r)) as [Heq | Hner].
    + rewrite list_lookup_insert_ne by congruence.
      assert (row !! Z.to_nat c' = Some x) as Hrx.
      { apply Hold. unfold grid_at in *. by rewrite <- Heq. }
      rewrite grow_lookup_old; [done |]. by apply lookup_lt_Some in Hrx.
    + by apply grid_at_grow.
Qed.

Lemma writes_only_refl W v data : writes_only W v data data.
Proof. split; auto. Qed.

Lemma writes_only_trans W v d1 d2 d3 :
  writes_only W v d1 d2 -> writes_only W v d2 d3 -> writes_only W v d1 d3.
Proof. intros [A1 B1] [A2 B2]. split; eauto. Qed.

Lemma grid_setitem_writes (W : nat -> nat -> Prop) (data : grid) (r c : Z)
    (v : string) :
  0 <= r -> 0 <= c -> W (Z.to_nat r) (Z.to_nat c) ->
  exists data',
    grid_setitem data r c (Some v) = Ok data'
    /\ grid_at data' r c = Some (Some v)
    /\ writes_only W v data data'.
Proof.
  intros Hr Hc HW.
  destruct (grid_setitem_spec data r c (Some v) Hr Hc)
    as [data' (Hset & Hat & Hframe)].
  exists data'. split; [done |]; split; [done |]. split.
  - intros r' c' Hx.
    destruct (decide ((Z.to_nat r', Z.to_nat c') = (Z.to_nat r, Z.to_nat c)))
      as [Heq | Hne]; [| by apply Hframe].
    inversion Heq as [[Hr' Hc']]. unfold grid_at in *.
    by rewrite Hr', Hc'.
  - intros r' c' x HnW Hx. apply Hframe; [| done].
    intros Heq. inversion Heq as [[Hr' Hc']]. apply HnW. by rewrite Hr', Hc'.
Qed.

(** One row of the rectangle. *)
Lemma fill_cols_spec (W : nat -> nat -> Prop) (r j : Z) (v : string)
    (ds : list Z) :
  0 <= r -> 0 <= j ->
  (forall dj, dj ∈ ds -> 0 <= dj /\ W (Z.to_nat r) (Z.to_nat (j + dj))) ->
  forall data,
  exists data',
    foldM (fun data dj => grid_setitem data r (j + dj) (Some v)) data ds
    = Ok data'
    /\ (forall dj, dj ∈ ds -> grid_at data' r (j + dj) = Some (Some v))
    /\ writes_only W v data data'.
Proof.
  intros Hr Hj. induction ds as [| d ds IH]; intros Hds data.
  - exists data. split; [done |]; split; [| apply writes_only_refl].
    intros dj Hin. by apply elem_of_nil in Hin.
  - destruct (Hds d) as [Hd HW]; [left |].
    destruct (grid_setitem_writes W data r (j + d) v) as [d1 (Hset & Hat & Hw1)];
      [done | lia | done |].
    destruct (IH (fun dj Hin => Hds dj (list_elem_of_further _ _ _ Hin)) d1)
      as [d2 (Hfold & Hall & Hw2)].
    exists d2. simpl. rewrite Hset. simpl. split; [done |]; split.
    + intros dj Hin. apply elem_of_cons in Hin as [-> | Hin]; [| by apply Hall].
      by apply (proj1 Hw2).
    + by eapply writes_only_trans.
Qed.

(** The whole rectangle. *)
Lemma fill_rows_spec (W : nat -> nat -> Prop) (i j : Z) (v : string)
    (cols rows : list Z) :
  0 <= i -> 0 <= j ->
  (forall di dj, di ∈ rows -> dj ∈ cols ->
                 0 <= di /\ 0 <= dj /\ W (Z.to_nat (i + di)) (Z.to_nat (j + dj))) ->
  forall data,
  exists data',
    foldM (fun data di =>
             foldM (fun data dj =>
                      grid_setitem data (i + di) (j + dj) (Some v))
                   data cols)
          data rows
    = Ok data'
    /\ (forall di dj, di ∈ rows -> dj ∈ cols ->
                      grid_at data' (i + di) (j + dj) = Some (Some v))
    /\ writes_only W v data data'.
Proof.
  intros Hi Hj. induction rows as [| d rows IH]; intros Hrows data.
  - exists data. split; [done |]; split; [| apply writes_only_refl].
    intros di dj Hin. by apply elem_of_nil in Hin.
  - destruct cols as [| c0 cols'] eqn:Ecols.
    { (* no column: nothing is written *)
      exists data. split.
      - clear IH Hrows. induction (d :: rows) as [| x xs IHx]; [done |].
        simpl. exact IHx.
      - split; [| apply writes_only_refl].
        intros di dj _ Hin. by apply elem_of_nil in Hin. }
    rewrite <- Ecols in *.
    assert (0 <= d) as Hd.
    { destruct (Hrows d c0) as [? _]; [left | rewrite Ecols; left | done]. }
    destruct (fill_cols_spec W (i + d) j v cols) with (data := data)
      as [d1 (Hrow & Hall1 & Hw1)]; [lia | done | |].
    { intros dj Hin. destruct (Hrows d dj) as (_ & ? & ?); [left | done | done]. }
    destruct (IH (fun di dj Hi' Hj' =>
                    Hrows di dj (list_elem_of_further _ _ _ Hi') Hj') d1)
      as [d2 (Hfold & Hall & Hw2)].
    exists d2. simpl. rewrite Hrow. simpl. split; [done |]; split.
    + intros di dj Hin Hjn.
      apply elem_of_cons in Hin as [-> | Hin]; [| by apply Hall].
      apply (proj1 Hw2). by apply Hall1.
    + by eapply writes_only_trans.
Qed.

Lemma fill_rect_spec (data : grid) (i j : Z) (v : string)
    (rowspan colspan : Z) :
  0 <= i -> 0 <= j ->
  exists data',
    fill_rect data i j v rowspan colspan = Ok data'
    /\ (forall di dj, 0 <= di < rowspan -> 0 <= dj < colspan ->
                      grid_at data' (i + di) (j + dj) = Some (Some v))
    /\ writes_only (in_rect i j rowspan colspan) v data data'.
Proof.
  intros Hi Hj. unfold fill_rect.
  destruct (fill_rows_spec (in_rect i j rowspan colspan) i j v
              (range colspan) (range rowspan) Hi Hj)
    with (data := data) as [data' (Hfold & Hall & Hw)].
  { intros di dj Hdi Hdj. unfold range in *.
    apply elem_of_seqZ in Hdi, Hdj. unfold in_rect. lia. }
  exists data'. split; [done |]; split; [| exact Hw].
  intros di dj Hdi Hdj. apply Hall; unfold range; apply elem_of_seqZ; lia.
Qed.

(** ** Placing one cell *)

Lemma place_cell_spec (i : Z) (data : grid) (j : Z) (h : bool) (c : cell)
    (rowspan colspan : Z) :
  0 <= i -> 0 <= j ->
  span (cell_rowspan c) = Ok rowspan ->
  span (cell_colspan c) = Ok colspan ->
  exists data' jf,
    place_cell i (data, j, h) c
    = Ok (data', jf + 1, if is_header_cell c then h else false)
    /\ j <= jf
    /\ (forall s, grid_at data i jf <> Some (Some s))
    /\ (forall c', j <= c' < jf -> exists s, grid_at data i c' = Some (Some s))
    /\ grid_at data' i jf = Some (Some (cell_value c))
    /\ (forall di dj, 0 <= di < rowspan -> 0 <= dj < colspan ->
                      grid_at data' (i + di) (jf + dj)
                      = Some (Some (cell_value c)))
    /\ writes_only (cell_writes i jf rowspan colspan) (cell_value c) data data'.
Proof.
  intros Hi Hj Hrs Hcs. unfold place_cell. rewrite Hrs, Hcs. cbn [bind].
  destruct (data_getitem_nonneg data i Hi) as [row (Hget & Hrow & Hold)].
  rewrite Hget. cbn [bind].
  destruct (push_data_spec row j (cell_value c) Hj)
    as [k (Hpush & Hjk & Hfree & Hmin & _)].
  rewrite Hpush. cbn [bind]. rewrite store_row_nonneg by done.
  set (row2 := <[Z.to_nat k := Some (cell_value c)]>
                 (row ++ replicate (Z.to_nat (k + 1 - len row)) None)).
  set (data2 := <[Z.to_nat i := row2]> (GrowingList.grow [] data i)).
  pose proof (lookup_lt_Some _ _ _ Hrow) as Hlt.
  assert (row2 !! Z.to_nat k = Some (Some (cell_value c))) as Hk2.
  { apply list_lookup_insert_eq. rewrite length_app, length_replicate.
    unfold len. lia. }
  assert (forall c' x, Z.to_nat c' <> Z.to_nat k ->
                       row !! Z.to_nat c' = Some x ->
                       row2 !! Z.to_nat c' = Some x) as Hother.
  { intros c' x Hne Hx. unfold row2.
    rewrite list_lookup_insert_ne by done.
    rewrite lookup_app_l; [done |]. by apply lookup_lt_Some in Hx. }
  assert (grid_at data2 i k = Some (Some (cell_value c))) as Hat2.
  { unfold data2. rewrite grid_at_store by done. by rewrite decide_True. }
  assert (writes_only (cell_writes i k rowspan colspan) (cell_value c)
                      data data2) as Hw2.
  { split.
    - intros r' c' Hx. unfold data2. rewrite grid_at_store by done.
      destruct (decide (Z.to_nat r' = Z.to_nat i)) as [Heq | Hne];
        [| by apply grid_at_grow].
      destruct (decide (Z.to_nat c' = Z.to_nat k)) as [-> | Hnk]; [done |].
      apply Hother; [done |]. apply Hold. unfold grid_at in *.
      by rewrite <- Heq.
    - intros r' c' x HnW Hx. unfold data2. rewrite grid_at_store by done.
      destruct (decide (Z.to_nat r' = Z.to_nat i)) as [Heq | Hne];
        [| by apply grid_at_grow].
      apply Hother.
      + intros Hck. apply HnW. by left.
      + apply Hold. unfold grid_at in *. by rewrite <- Heq. }
  destruct (fill_rect_spec data2 i k (cell_value c) rowspan colspan)
    as [data3 (Hfill & Hall & Hw3)]; [done | lia |].
  rewrite Hfill. cbn [bind]. exists data3, k.
  split; [done |]. split; [done |]. split; [| split; [| split; [| split]]].
  - intros s Hs. apply Hold in Hs. unfold free_slot in Hfree.
    by rewrite Hs in Hfree.
  - intros c' Hc'. specialize (Hmin c' Hc'). unfold free_slot in Hmin.
    destruct (row !! Z.to_nat c') as [[s |] |] eqn:E; try discriminate.
    exists s. unfold grid_at.
    assert (data !! Z.to_nat i = Some row) as Hdi.
    { rewrite <- Hrow. symmetry. apply grow_lookup_old.
      destruct (decide (Z.to_nat i < length data)%nat) as [Hin | Hout];
        [done |].
      exfalso. rewrite grow_lookup_new in Hrow by lia.
      inversion Hrow; subst row. by rewrite lookup_nil in E. }
    by rewrite Hdi.
  - by apply (proj1 Hw3).
  - done.
  - eapply writes_only_trans; [exact Hw2 |].
    destruct Hw3 as [A B]. split; [done |].
    intros r' c' x HnW. apply B. intros Hin. apply HnW. by right.
Qed.

Lemma place_cell_ok_spans (i : Z) (st st' : grid * Z * bool) (c : cell) :
  place_cell i st c = Ok st' ->
  exists rowspan colspan,
    span (cell_rowspan c) = Ok rowspan /\ span (cell_colspan c) = Ok colspan.
Proof.
  destruct st as [[data j] h]. unfold place_cell.
  destruct (span (cell_rowspan c)) as [rs |]; [| discriminate].
  destruct (span (cell_colspan c)) as [cs |]; [| discriminate].
  eauto.
Qed.

(** ** What later cells leave alone *)

(** A position that holds a string survives the placement of a cell in
    row [i] from cursor [j] when it lies in an earlier row, or left of the
    cursor, or in the cursor's column while the cursor's slot in row [i]
    is occupied (the cell is then placed further right). *)
Lemma place_cell_keeps (i : Z) (data : grid) (j : Z) (h : bool) (c : cell)
    (data' : grid) (j' : Z) (h' : bool) (r' c' : Z) (s : string) :
  0 <= i -> 0 <= j -> 0 <= r' -> 0 <= c' ->
  place_cell i (data, j, h) c = Ok (data', j', h') ->
  r' < i \/ c' < j
  \/ (c' = j /\ exists s0, grid_at data i j = Some (Some s0)) ->
  grid_at data r' c' = Some (Some s) ->
  j < j' /\ grid_at data' r' c' = Some (Some s).
Proof.
  intros Hi Hj Hr' Hc' Hplace Hpos Hs.
  destruct (place_cell_ok_spans _ _ _ _ Hplace) as (rs & cs & Hrs & Hcs).
  destruct (place_cell_spec i data j h c rs cs Hi Hj Hrs Hcs)
    as (d & jf & Heq & Hle & Hfree & _ & _ & _ & Hw).
  rewrite Heq in Hplace. inversion Hplace; subst. split; [lia |].
  apply (proj2 Hw); [| done].
  assert ((exists s0, grid_at data i j = Some (Some s0)) -> jf <> j) as Hskip.
  { intros [s0 Hs0] ->. by apply (Hfree s0). }
  unfold cell_writes, in_rect.
  destruct Hpos as [? | [? | [-> Hocc]]]; [lia | lia |].
  specialize (Hskip Hocc). lia.
Qed.

Lemma cells_loop_keeps (i : Z) (r' c' : Z) (s : string) (cells : list cell) :
  0 <= i -> 0 <= r' -> 0 <= c' ->
  forall (data : grid) (j : Z) (h : bool) (data' : grid) (j' : Z) (h' : bool),
    0 <= j ->
    foldM (place_cell i) (data, j, h) cells = Ok (data', j', h') ->
    r' < i \/ c' < j
    \/ (c' = j /\ exists s0, grid_at data i j = Some (Some s0)) ->
    grid_at data r' c' = Some (Some s) ->
    grid_at data' r' c' = Some (Some s).
Proof.
  intros Hi Hr' Hc'. induction cells as [| c cells IH];
    intros data j h data' j' h' Hj Hfold Hpos Hs.
  - cbn [foldM] in Hfold. by inversion Hfold; subst.
  - cbn [foldM] in Hfold.
    destruct (place_cell i (data, j, h) c) as [[[d1 j1] h1] |] eqn:E;
      [| discriminate].
    cbn [bind] in Hfold.
    destruct (place_cell_keeps i data j h c d1 j1 h1 r' c' s) as [Hlt Hk];
      try done.
    eapply (IH d1 j1 h1); [lia | exact Hfold | | done].
    destruct Hpos as [? | [? | [-> _]]]; lia.
Qed.

(** A run of occupied slots at the top of column 0 stays through any
    further rows: a row inside the run finds its slot 0 occupied, a row
    below the run writes below it. *)
Lemma rows_loop_keeps_column (v : string) (n : Z)
    (irows : list (Z * list cell)) :
  Forall (fun ir => 0 <= ir.1) irows ->
  forall (data : grid) (hc : Z) (data' : grid) (hc' : Z),
    foldM table_row (data, hc) irows = Ok (data', hc') ->
    (forall d, 0 <= d < n -> grid_at data d 0 = Some (Some v)) ->
    forall d, 0 <= d < n -> grid_at data' d 0 = Some (Some v).
Proof.
  induction irows as [| [i cells] irows IH];
    intros Hall data hc data' hc' Hfold Hcol.
  - cbn [foldM] in Hfold. by inversion Hfold; subst.
  - apply Forall_cons in Hall as [Hi Hall]. simpl in Hi.
    cbn [foldM] in Hfold. unfold table_row at 1 in Hfold.
    destruct (foldM (place_cell i) (data, 0, true) cells)
      as [[[d1 j1] h1] |] eqn:E; [| discriminate].
    cbn [bind] in Hfold.
    eapply (IH Hall _ _ _ _ Hfold).
    intros d Hd.
    eapply (cells_loop_keeps i d 0 v cells); try exact E; try lia.
    + destruct (Z.lt_ge_cases d i) as [Hlt | Hge]; [by left |].
      right. right. split; [done |]. exists v. apply Hcol. lia.
    + by apply Hcol.
Qed.

(** ** Counting header rows *)





Lemma enumerate_snd {A : Type} (l : list A) : (enumerate l).*2 = l.
Proof.
  unfold enumerate. apply snd_zip. rewrite length_seqZ. unfold len. lia.
Qed.

Lemma enumerate_fst_nonneg {A : Type} (l : list A) :
  Forall (fun ir => 0 <= ir.1) (enumerate l).
Proof.
  apply Forall_forall. intros [i x] Hin. unfold enumerate in Hin.
  apply elem_of_zip_l in Hin. apply elem_of_seqZ in Hin. simpl. lia.
Qed.




(** ** When table_data returns *)











(** ** The rectangle of a cell *)

(** The first cell of the table lands at (0,0), and the first column of
    its rectangle stays: later cells of its row start right of it, and a
    later row inside the rectangle finds its slot 0 occupied. *)
Lemma first_cell_column (c0 : cell) (cells0 : list cell) (rest : html_table)
    (rowspan colspan : Z) (data : grid) (header_count : Z) :
  span (cell_rowspan c0) = Ok rowspan ->
  span (cell_colspan c0) = Ok colspan ->
  0 < colspan ->
  table_data ((c0 :: cells0) :: rest) = Ok (data, header_count) ->
  forall di, 0 <= di < rowspan ->
             grid_at data di 0 = Some (Some (cell_value c0)).
Proof.
  intros Hrs Hcs Hpos Htd. unfold table_data, enumerate in Htd.
  assert (len ((c0 :: cells0) :: rest) = Z.succ (len rest)) as Hlen.
  { unfold len. simpl. lia. }
  rewrite Hlen, seqZ_cons in Htd by (unfold len; lia).
  rewrite Z.pred_succ in Htd. cbn [zip zip_with foldM] in Htd.
  unfold table_row at 1 in Htd. cbn [foldM] in Htd.
  destruct (place_cell_spec 0 [] 0 true c0 rowspan colspan)
    as (d1 & jf & Heq & Hle & _ & Hskip & _ & Hall & _); try done.
  assert (jf = 0) as ->.
  { destruct (Z.eq_dec jf 0) as [| Hne]; [done |].
    destruct (Hskip 0) as [s Hs]; [lia |]. discriminate. }
  rewrite Heq in Htd. cbn [bind] in Htd.
  destruct (foldM (place_cell 0) _ cells0) as [[[d2 j2] h2] |] eqn:Erow;
    [| discriminate].
  cbn [bind] in Htd.
  eapply (rows_loop_keeps_column (cell_value c0) rowspan); [| exact Htd |].
  - apply Forall_forall. intros [i x] Hin.
    apply elem_of_zip_l, elem_of_seqZ in Hin. simpl. lia.
  - intros d Hd.
    eapply (cells_loop_keeps 0 d 0 _ cells0); try exact Erow; try lia.
    specialize (Hall d 0). rewrite !Z.add_0_l in Hall. apply Hall; lia.
Qed.

(** C6.  A cell processed in row [i >= 0] with the column cursor at
    [j >= 0] is placed at [(i, jf)], [jf] being the first column at or
    after [j] that holds no value in row [i]; with span attributes that
    convert to [rowspan] and [colspan], once the cell is placed its value
    is in [(i, jf)] and in every position of the rectangle
    [[i, i + rowspan) x [jf, jf + colspan)].  In particular, in the grid
    that [table_data] returns, the cell that opens the table, when it has
    rowspan 2 and colspan 1, is read back at (0,0) and at (1,0). *)
Theorem cell_fills_rectangle :
  (forall (i : Z) (data : grid) (j : Z) (h : bool) (c : cell)
          (data' : grid) (j' : Z) (h' : bool),
      0 <= i -> 0 <= j ->
      place_cell i (data, j, h) c = Ok (data', j', h') ->
      exists rowspan colspan jf,
        span (cell_rowspan c) = Ok rowspan
        /\ span (cell_colspan c) = Ok colspan
        /\ j' = jf + 1 /\ j <= jf
        /\ (forall s, grid_at data i jf <> Some (Some s))
        /\ (forall c', j <= c' < jf ->
                       exists s, grid_at data i c' = Some (Some s))
        /\ grid_at data' i jf = Some (Some (cell_value c))
        /\ (forall di dj, 0 <= di < rowspan -> 0 <= dj < colspan ->
                          grid_at data' (i + di) (jf + dj)
                          = Some (Some (cell_value c))))
  /\ (forall (c0 : cell) (cells0 : list cell) (rest : html_table)
             (data : grid) (header_count : Z),
        span (cell_rowspan c0) = Ok 2 ->
        span (cell_colspan c0) = Ok 1 ->
        table_data ((c0 :: cells0) :: rest) = Ok (data, header_count) ->
        grid_at data 0 0 = Some (Some (cell_value c0))
        /\ grid_at data 1 0 = Some (Some (cell_value c0))).
Proof.
  split.
  - intros i data j h c data' j' h' Hi Hj Hplace.
    destruct (place_cell_ok_spans _ _ _ _ Hplace) as (rs & cs & Hrs & Hcs).
    destruct (place_cell_spec i data j h c rs cs Hi Hj Hrs Hcs)
      as (d & jf & Heq & Hle & Hfree & Hskip & Hat & Hall & _).
    rewrite Heq in Hplace. inversion Hplace; subst.
    exists rs, cs, jf. auto 10.
  - intros c0 cells0 rest data hc Hrs Hcs Htd.
    split; eapply (first_cell_column c0 cells0 rest 2 1); eauto; lia.
Qed.

Lemma cell_fills_rectangle_witness :
  (exists rowspan colspan jf,
      span (Some "2") = Ok rowspan
      /\ span (Some "3") = Ok colspan
      /\ 3 = jf + 1 /\ 0 <= jf
      /\ (forall s, grid_at [[Some "a"; Some "b"]] 0 jf <> Some (Some s))
      /\ (forall c', 0 <= c' < jf ->
                     exists s, grid_at [[Some "a"; Some "b"]] 0 c'
                               = Some (Some s))
      /\ grid_at [[Some "a"; Some "b"; Some "X"; Some "X"; Some "X"];
                  [None; None; Some "X"; Some "X"; Some "X"]] 0 jf
         = Some (Some "X")
      /\ (forall di dj, 0 <= di < rowspan -> 0 <= dj < colspan ->
                        grid_at [[Some "a"; Some "b"; Some "X"; Some "X"; Some "X"];
                                 [None; None; Some "X"; Some "X"; Some "X"]]
                                (0 + di) (jf + dj)
                        = Some (Some "X")))
  /\ (grid_at [[Some "X"; Some "H"]; [Some "X"; Some "a"]] 0 0
      = Some (Some "X")
      /\ grid_at [[Some "X"; Some "H"]; [Some "X"; Some "a"]] 1 0
         = Some (Some "X")).
Proof.
  split.
  - apply (proj1 cell_fills_rectangle 0 [[Some "a"; Some "b"]] 0 true
             (Cell td (Some "X  ") (Some "2") (Some "3")) _ 3 false);
      [lia | lia | vm_compute; reflexivity].
  - apply (proj2 cell_fills_rectangle
             (Cell th (Some "X") (Some "2") (Some "1"))
             [Cell th (Some "H") None None]
             [[Cell td (Some "a") None None]] _ 1);
      vm_compute; reflexivity.
Defined.

(** ** The header row that parse picks *)




(** ** Emitting metrics rows *)

Lemma dict_of_pairs_snoc {K V : Type} `{Countable K} (l : list (K * V))
    (k : K) (v : V) :
  dict_of_pairs (l ++ [(k, v)]) = <[k := v]> (dict_of_pairs l).
Proof. unfold dict_of_pairs. by rewrite foldl_app. Qed.

Lemma dict_of_pairs_lookup {K V : Type} `{Countable K} (l : list (K * V))
    (k : K) (v : V) :
  dict_of_pairs l !! k = Some v -> (k, v) ∈ l.
Proof.
  induction l as [| [k0 v0] l IH] using rev_ind; [done |].
  rewrite dict_of_pairs_snoc. intros Hl.
  apply lookup_insert_Some in Hl as [[-> ->] | [Hne Hl]].
  - apply elem_of_app. right. left.
  - apply elem_of_app. left. by apply IH.
Qed.

Lemma dict_of_pairs_nodup {K V : Type} `{Countable K} (l : list (K * V))
    (k : K) (v : V) :
  NoDup l.*1 -> (k, v) ∈ l -> dict_of_pairs l !! k = Some v.
Proof.
  induction l as [| [k0 v0] l IH] using rev_ind; intros Hnd Hin.
  - by apply elem_of_nil in Hin.
  - rewrite fmap_app in Hnd. apply NoDup_app in Hnd as (Hnd & Hdisj & _).
    rewrite dict_of_pairs_snoc.
    apply elem_of_app in Hin as [Hin | Hin].
    + rewrite lookup_insert_ne; [by apply IH |].
      intros ->. apply (Hdisj k); [| left].
      apply list_elem_of_fmap. by exists (k, v).
    + apply list_elem_of_singleton in Hin. inversion Hin; subst.
      apply lookup_insert_eq.
Qed.





(** ** URL query codec *)

Lemma occurs_app (c : ascii) (a b : string) :
  occurs c (a +:+ b) = occurs c a || occurs c b.
Proof.
  induction a as [| c' a IH]; [done |]. simpl. rewrite IH.
  by rewrite orb_assoc.
Qed.

Lemma occurs_concat (c sep : ascii) (pieces : list string) :
  c <> sep ->
  Forall (fun s => occurs c s = false) pieces ->
  occurs c (String.concat (String sep EmptyString) pieces) = false.
Proof.
  intros Hne. induction pieces as [| x [| y pieces] IH]; intros Hall.
  - done.
  - by apply Forall_cons in Hall as [Hx _].
  - apply Forall_cons in Hall as [Hx Hall].
    change (occurs c (x +:+ String sep EmptyString
                        +:+ String.concat (String sep EmptyString) (y :: pieces))
            = false).
    rewrite !occurs_app, Hx, (IH Hall). simpl.
    by rewrite bool_decide_eq_false_2.
Qed.

(** Every way [.*] matches leaves a rest that is a suffix. *)
Lemma dot_star_rest (c : ascii) (s m r : string) :
  (m, r) ∈ dot_star s -> occurs c r = true -> occurs c s = true.
Proof.
  revert m r. induction s as [| c' s IH]; intros m r Hin Hr.
  - simpl in Hin. apply list_elem_of_singleton in Hin. by inversion Hin; subst.
  - simpl in Hin. case_bool_decide.
    + apply list_elem_of_singleton in Hin. by inversion Hin; subst.
    + apply elem_of_app in Hin as [Hin | Hin].
      * apply list_elem_of_fmap in Hin as ([m' r'] & Heq & Hin).
        inversion Heq; subst. simpl. rewrite (IH m' r' Hin Hr).
        by rewrite orb_true_r.
      * apply list_elem_of_singleton in Hin. by inversion Hin; subst.
Qed.

(** The greedy first try takes the whole string when it has no newline. *)
Lemma dot_star_first (s : string) :
  occurs newline s = false ->
  exists others, dot_star s = (s, EmptyString) :: others.
Proof.
  induction s as [| c s IH]; intros Hnl; [by exists [] |].
  simpl in Hnl. apply orb_false_iff in Hnl as [Hc Hs].
  destruct (IH Hs) as [others Ho]. simpl. rewrite Hc, Ho. simpl. eauto.
Qed.

Lemma params_matches_first (base params : string) :
  occurs newline params = false ->
  head (params_matches base params) = Some (base, params).
Proof.
  intros Hnl. unfold params_matches.
  destruct (dot_star_first params Hnl) as [others ->]. done.
Qed.

Lemma flat_map_nil {A B : Type} (f : A -> list B) (l : list A) :
  (forall x, x ∈ l -> f x = []) -> flat_map f l = [].
Proof.
  induction l as [| x l IH]; intros Hall; [done |].
  simpl. rewrite (Hall x) by left. apply IH. intros y Hy. apply Hall.
  by right.
Qed.

Lemma search_joined (base params : string) :
  occurs "?" base = false -> occurs newline base = false ->
  occurs "?" params = false -> occurs newline params = false ->
  search_base_params (base +:+ String "?" params) = Some (base, params).
Proof.
  intros Hq Hn Hpq Hpn. unfold search_base_params.
  induction base as [| c base IH].
  - (* the base is empty: no shorter rest starts with a question mark *)
    change (EmptyString +:+ String "?" params) with (String "?" params).
    unfold url_matches. simpl dot_star.
    rewrite flat_map_app, flat_map_nil.
    + simpl. rewrite app_nil_r. by apply params_matches_first.
    + intros [m r] Hin. apply list_elem_of_fmap in Hin as ([m' r'] & Heq & Hin).
      inversion Heq; subst. simpl. destruct r' as [| c' r']; [done |].
      case_bool_decide; [| done]. subst c'.
      assert (occurs "?" params = true); [| congruence].
      by apply (dot_star_rest _ _ m' (String "?" r') Hin).
  - simpl in Hq, Hn.
    apply orb_false_iff in Hq as [Hcq Hq], Hn as [Hcn Hn].
    specialize (IH Hq Hn).
    change (String c base +:+ String "?" params)
      with (String c (base +:+ String "?" params)).
    unfold url_matches in *. simpl dot_star. rewrite Hcn.
    rewrite flat_map_app.
    set (f := fun br : string * string =>
                match br.2 with
                | String c0 rest =>
                  if bool_decide (c0 = "?"%char)
                  then params_matches br.1 rest else []
                | EmptyString => []
                end) in *.
    destruct (flat_map f (dot_star (base +:+ String "?" params)))
      as [| [b0 p0] more] eqn:E; [discriminate |].
    simpl in IH. inversion IH; subst b0 p0.
    assert (forall l,
              head (flat_map f l) = Some (base, params) ->
              head (flat_map f (map (fun mr => (String c mr.1, mr.2)) l))
              = Some (String c base, params)) as Hmap.
    { clear. induction l as [| [m r] l IHl]; [done |]. simpl.
      unfold f at 1 3. simpl. destruct r as [| c0 r].
      - simpl. exact IHl.
      - case_bool_decide; [| exact IHl].
        unfold params_matches.
        induction (dot_star r) as [| [pm pr] ds IHd]; [exact IHl |].
        simpl. destruct (at_dollar pr); [| exact IHd].
        simpl. by inversion 1. }
    specialize (Hmap (dot_star (base +:+ String "?" params))).
    rewrite E in Hmap. specialize (Hmap eq_refl).
    destruct (flat_map f (map _ _)) as [| x xs]; [discriminate |].
    exact Hmap.
Qed.

Lemma split_no_sep (sep : ascii) (s : string) :
  occurs sep s = false -> split sep s = [s].
Proof.
  induction s as [| c s IH]; intros Hs; [done |].
  simpl in Hs. apply orb_false_iff in Hs as [Hc Hs].
  simpl. rewrite Hc, (IH Hs). done.
Qed.

Lemma split_app (sep : ascii) (a b : string) :
  occurs sep a = false ->
  split sep (a +:+ String sep b) = a :: split sep b.
Proof.
  induction a as [| c a IH]; intros Ha.
  - simpl. by rewrite bool_decide_eq_true_2.
  - simpl in Ha. apply orb_false_iff in Ha as [Hc Ha].
    change (String c a +:+ String sep b) with (String c (a +:+ String sep b)).
    simpl. rewrite Hc, (IH Ha). done.
Qed.

Lemma split_concat (sep : ascii) (pieces : list string) :
  pieces <> [] ->
  Forall (fun s => occurs sep s = false) pieces ->
  split sep (String.concat (String sep EmptyString) pieces) = pieces.
Proof.
  induction pieces as [| x [| y pieces] IH]; intros Hne Hall.
  - done.
  - apply Forall_cons in Hall as [Hx _]. by apply split_no_sep.
  - apply Forall_cons in Hall as [Hx Hall].
    change (String.concat (String sep EmptyString) (x :: y :: pieces))
      with (x +:+ String sep (String.concat (String sep EmptyString)
                                            (y :: pieces))).
    rewrite split_app by done. f_equal. by apply IH.
Qed.

Lemma key_value_joined (k v : string) :
  occurs "=" k = false -> occurs "=" v = false ->
  key_value (k +:+ "=" +:+ v) = Ok (k, v).
Proof.
  intros Hk Hv. unfold key_value.
  change (k +:+ "=" +:+ v) with (k +:+ String "=" v).
  by rewrite split_app, split_no_sep.
Qed.

Lemma url_safe_spec (s : string) :
  url_safe s = true ->
  occurs "?" s = false /\ occurs "&" s = false /\ occurs "=" s = false
  /\ occurs newline s = false.
Proof.
  unfold url_safe, plain. intros H.
  repeat (apply andb_true_iff in H as [H ?]).
  repeat match goal with
         | X : negb _ = true |- _ => apply negb_true_iff in X
         end.
  done.
Qed.

Lemma mapM_key_value_joined (items : list (string * string)) :
  Forall (fun kv => url_safe kv.1 && url_safe kv.2 = true) items ->
  mapM key_value (map (fun kv => kv.1 +:+ "=" +:+ kv.2) items) = Ok items.
Proof.
  induction items as [| [k v] items IH]; intros Hall; [done |].
  apply Forall_cons in Hall as [Hkv Hall]. simpl in Hkv.
  apply andb_true_iff in Hkv as [Hk Hv].
  apply url_safe_spec in Hk as (_ & _ & Hk & _).
  apply url_safe_spec in Hv as (_ & _ & Hv & _).
  cbn [map mapM fst snd]. rewrite key_value_joined by done.
  cbn [bind]. rewrite (IH Hall). done.
Qed.

Lemma pieces_without (c : ascii) (items : list (string * string)) :
  c <> "="%char ->
  Forall (fun kv => occurs c kv.1 = false /\ occurs c kv.2 = false) items ->
  Forall (fun s => occurs c s = false)
         (map (fun kv => kv.1 +:+ "=" +:+ kv.2) items).
Proof.
  intros Hne Hall. apply Forall_map. eapply Forall_impl; [exact Hall |].
  intros [k v] [Hk Hv]. simpl in *.
  change (k +:+ "=" +:+ v) with (k +:+ String "=" v).
  rewrite occurs_app, Hk. simpl. rewrite Hv.
  by rewrite bool_decide_eq_false_2.
Qed.

(** C8, as the code has it.  For every base path and every non-empty
    sequence of items with distinct keys (the mapping in its iteration
    order) where the base has no question mark and no newline, and every
    key and value has none of [?], [&], [=] and no newline: the joined URL
    is the base, a question mark and the parameters in the order of the
    items, and splitting it returns the base and the mapping that holds
    exactly the items. *)
Theorem split_url_join_url (base : string) (items : list (string * string)) :
  occurs "?" base = false ->
  occurs newline base = false ->
  items <> [] ->
  NoDup items.*1 ->
  Forall (fun kv => url_safe kv.1 && url_safe kv.2 = true) items ->
  exists params mapping,
    join_url base items = base +:+ "?" +:+ params
    /\ search_base_params (join_url base items) = Some (base, params)
    /\ mapM key_value (split "&" params) = Ok items
    /\ split_url (join_url base items) = Ok (base, mapping)
    /\ forall k v, mapping !! k = Some v <-> (k, v) ∈ items.
Proof.
  intros Hq Hn Hne Hnd Hall.
  set (pieces := map (fun kv => kv.1 +:+ "=" +:+ kv.2) items).
  set (params := String.concat "&" pieces).
  assert (Forall (fun kv => (occurs "?" kv.1 = false /\ occurs "?" kv.2 = false)
                            /\ (occurs "&" kv.1 = false /\ occurs "&" kv.2 = false)
                            /\ (occurs newline kv.1 = false
                                /\ occurs newline kv.2 = false)) items) as Hchars.
  { eapply Forall_impl; [exact Hall |]. intros [k v] Hkv. simpl in *.
    apply andb_true_iff in Hkv as [Hk Hv].
    apply url_safe_spec in Hk as (? & ? & ? & ?).
    apply url_safe_spec in Hv as (? & ? & ? & ?). done. }
  assert (occurs "?" params = false) as Hpq.
  { apply occurs_concat; [done |]. apply pieces_without; [done |].
    eapply Forall_impl; [exact Hchars |]. by intros ? (? & _). }
  assert (occurs newline params = false) as Hpn.
  { apply occurs_concat; [done |]. apply pieces_without; [done |].
    eapply Forall_impl; [exact Hchars |]. by intros ? (_ & _ & ?). }
  assert (split "&" params = pieces) as Hsplit.
  { apply split_concat.
    - unfold pieces. by destruct items.
    - apply pieces_without; [done |].
      eapply Forall_impl; [exact Hchars |]. by intros ? (_ & ? & _). }
  assert (search_base_params (join_url base items) = Some (base, params))
    as Hsearch.
  { by apply search_joined. }
  exists params, (dict_of_pairs items).
  split; [done |]. split; [done |].
  split; [rewrite Hsplit; by apply mapM_key_value_joined |].
  split.
  - unfold split_url. rewrite Hsearch, Hsplit. unfold pieces.
    by rewrite (mapM_key_value_joined items Hall).
  - intros k v. split.
    + apply dict_of_pairs_lookup.
    + by apply dict_of_pairs_nodup.
Qed.

Lemma split_url_join_url_witness :
  exists params mapping,
    join_url "http://host/p.aspx" [("product", "12"); ("size", "M3")]
    = "http://host/p.aspx" +:+ "?" +:+ params
    /\ search_base_params
         (join_url "http://host/p.aspx" [("product", "12"); ("size", "M3")])
       = Some ("http://host/p.aspx", params)
    /\ mapM key_value (split "&" params)
       = Ok [("product", "12"); ("size", "M3")]
    /\ split_url
         (join_url "http://host/p.aspx" [("product", "12"); ("size", "M3")])
       = Ok ("http://host/p.aspx", mapping)
    /\ forall k v, mapping !! k = Some v
                   <-> (k, v) ∈ [("product", "12"); ("size", "M3")].
Proof.
  apply (split_url_join_url "http://host/p.aspx"
           [("product", "12"); ("size", "M3")]).
  - vm_compute. reflexivity.
  - vm_compute. reflexivity.
  - discriminate.
  - simpl. apply NoDup_cons. split.
    + intros Hin. apply list_elem_of_singleton in Hin. discriminate.
    + apply NoDup_singleton.
  - repeat (apply Forall_cons; split; [vm_compute; reflexivity |]).
    apply Forall_nil_2.
Defined.

(** C8 as stated fails: a base that holds a newline has no question mark,
    yet the pattern of [split_url] does not match the joined URL (the dot
    does not match a newline) and [split_url] raises. *)
Lemma split_url_join_url_newline :
  ~ (forall (base : string) (items : list (string * string)),
       occurs "?" base = false ->
       items <> [] ->
       NoDup items.*1 ->
       Forall (fun kv => plain kv.1 && plain kv.2 = true) items ->
       exists mapping,
         split_url (join_url base items) = Ok (base, mapping)
         /\ forall k v, mapping !! k = Some v <-> (k, v) ∈ items).
Proof.
  intros H.
  destruct (H (String "a" (String newline "b")) [("k", "v")])
    as [mapping [Hsplit _]].
  - vm_compute. reflexivity.
  - discriminate.
  - simpl. apply NoDup_singleton.
  - apply Forall_cons. split; [vm_compute; reflexivity | apply Forall_nil_2].
  - vm_compute in Hsplit. discriminate.
Qed.

(** ** The csv action *)

Lemma feed_uri_unbound (scraped : bool) :
  load_name (if scraped then module_names ∪ scrape_names else module_names)
            "FEED_URI"
  = Raise (NameError "FEED_URI").
Proof. destruct scraped; vm_compute; reflexivity. Qed.

(** C1 fails on the code.  The csv block names the feed file with the
    bare name [FEED_URI], which is an attribute of the class
    [BoltDepotSpider] and not a name of the module (the scrape block
    writes [BoltDepotSpider.FEED_URI]).  With at least one requested
    catalogue the block raises NameError at the first one, whether or not
    the scrape block ran before: no feed is loaded, no header set is
    computed and no row is written. *)
Theorem csv_action_raises_name_error (scraped : bool) (prefix name : string)
    (catalogues : list string) (fs : filesystem) :
  csv_action (if scraped then module_names ∪ scrape_names else module_names)
             prefix (name :: catalogues) fs
  = (fs, Raise (NameError "FEED_URI")).
Proof.
  cbn [csv_action]. unfold csv_catalogue.
  by rewrite feed_uri_unbound.
Qed.


(** And a record without [image_url], which the product spider yields
    for a page without an image, would raise KeyError instead of leaving
    the cell blank. *)
Lemma csv_row_without_image (fieldnames : gset string) (it : item) :
  item_fields it !! "image_url" = None ->
  csv_row fieldnames it = Raise KeyError.
Proof.
  intros Hno. unfold csv_row, core_fields.
  rewrite decide_False; [done |].
  intros Hsub. assert ("image_url" ∈ dom (item_fields it)) as Hin.
  { apply Hsub. vm_compute. reflexivity. }
  apply elem_of_dom in Hin as [v Hv]. congruence.
Qed.

(** ** Action sequencing *)


(** Valid tokens reach the module body lower-cased; an invalid one ends
    the process before any phase. *)
Lemma command_line_valid
    (crawl : list string -> filesystem -> filesystem * result unit)
    (tokens : list string) (prefix : string) (onlymetrics list_flag : bool)
    (catalogues : list string) (fs : filesystem) :
  Forall (fun t => lower t ∈ VALID_ACTIONS) tokens ->
  command_line crawl tokens prefix onlymetrics list_flag catalogues fs
  = main crawl (Args (map lower tokens) prefix onlymetrics list_flag
                     catalogues) fs.
Proof.
  intros Hall. unfold command_line.
  assert (mapM (fun t => match action_type t with
                         | Some v => Ok v
                         | None => Raise ValueError
                         end) tokens
          = Ok (map lower tokens)) as ->; [| done].
  induction tokens as [| t tokens IH]; [done |].
  apply Forall_cons in Hall as [Ht Hall].
  cbn [mapM map]. unfold action_type at 1.
  rewrite decide_True by done. cbn [bind]. by rewrite (IH Hall).
Qed.

Lemma command_line_invalid
    (crawl : list string -> filesystem -> filesystem * result unit)
    (tokens : list string) (prefix : string) (onlymetrics list_flag : bool)
    (catalogues : list string) (fs : filesystem) :
  Exists (fun t => lower t ∉ VALID_ACTIONS) tokens ->
  command_line crawl tokens prefix onlymetrics list_flag catalogues fs
  = (Run [] fs None, Exit 2).
Proof.
  intros Hex. unfold command_line.
  assert (exists e, mapM (fun t => match action_type t with
                                   | Some v => Ok v
                                   | None => Raise ValueError
                                   end) tokens
                    = Raise e) as [e ->]; [| done].
  induction Hex as [t tokens Ht | t tokens Hex IH].
  - exists ValueError. cbn [mapM]. unfold action_type.
    by rewrite decide_False.
  - destruct IH as [e He]. cbn [mapM].
    destruct (action_type t); [| by exists ValueError].
    cbn [bind]. rewrite He. by exists e.
Qed.



(** ** The testlabel decorator *)

Lemma getattr_labels_own (h : TestLabel.class_store) (cls : TestLabel.class_id)
    (dflt value : gset string) :
  TestLabel.own_labels h cls = Some value ->
  TestLabel.getattr_labels h cls dflt = value.
Proof.
  unfold TestLabel.getattr_labels. intros Hown.
  destruct (h !! cls) as [k |] eqn:E.
  - cbn [omap list_omap]. by rewrite Hown.
  - unfold TestLabel.own_labels in Hown. by rewrite E in Hown.
Qed.

(** C10.  For every class of the store and every sequence of labels, the
    decorator returns the class it was given; afterwards the class's own
    [_labels] is the union of the given labels with the [_labels] the
    class had through [getattr] before (its own, or the one inherited from
    the nearest class of its MRO, or none), so no label is lost; no other
    class is touched; and a second decoration adds its labels to those of
    the first. *)
Theorem testlabel_accumulates (labels : list string)
    (h : TestLabel.class_store) (cls : TestLabel.class_id)
    (k : TestLabel.pyclass) :
  h !! cls = Some k ->
  (TestLabel.testlabel labels h cls).2 = cls
  /\ TestLabel.own_labels (TestLabel.testlabel labels h cls).1 cls
     = Some (list_to_set labels ∪ TestLabel.getattr_labels h cls ∅)
  /\ TestLabel.getattr_labels (TestLabel.testlabel labels h cls).1 cls ∅
     = list_to_set labels ∪ TestLabel.getattr_labels h cls ∅
  /\ TestLabel.getattr_labels h cls ∅
     ⊆ TestLabel.getattr_labels (TestLabel.testlabel labels h cls).1 cls ∅
  /\ (forall c, c <> cls ->
                (TestLabel.testlabel labels h cls).1 !! c = h !! c)
  /\ TestLabel.cls_mro_tail
       <$> (TestLabel.testlabel labels h cls).1 !! cls
     = Some (TestLabel.cls_mro_tail k)
  /\ (forall labels2 : list string,
        TestLabel.getattr_labels
          (TestLabel.testlabel labels2
             (TestLabel.testlabel labels h cls).1 cls).1 cls ∅
        = list_to_set labels2 ∪ list_to_set labels
          ∪ TestLabel.getattr_labels h cls ∅).
Proof.
  intros Hk.
  assert (forall (l : list string) (h0 : TestLabel.class_store)
                 (k0 : TestLabel.pyclass),
            h0 !! cls = Some k0 ->
            TestLabel.own_labels (TestLabel.testlabel l h0 cls).1 cls
            = Some (list_to_set l ∪ TestLabel.getattr_labels h0 cls ∅))
    as Hown.
  { intros l h0 k0 H0. unfold TestLabel.testlabel, TestLabel.own_labels,
      TestLabel.setattr_labels. simpl.
    rewrite lookup_alter_eq, H0. done. }
  assert (forall (l : list string) (h0 : TestLabel.class_store)
                 (k0 : TestLabel.pyclass),
            h0 !! cls = Some k0 ->
            TestLabel.getattr_labels (TestLabel.testlabel l h0 cls).1 cls ∅
            = list_to_set l ∪ TestLabel.getattr_labels h0 cls ∅) as Hget.
  { intros l h0 k0 H0. apply getattr_labels_own. by eapply Hown. }
  split; [done |]. split; [by eapply Hown |]. split; [by eapply Hget |].
  split; [rewrite (Hget labels h k Hk); apply union_subseteq_r |].
  split.
  { intros c Hne. unfold TestLabel.testlabel, TestLabel.setattr_labels.
    simpl. by rewrite lookup_alter_ne. }
  split.
  { unfold TestLabel.testlabel, TestLabel.setattr_labels. simpl.
    by rewrite lookup_alter_eq, Hk. }
  intros labels2.
  assert (exists k1, (TestLabel.testlabel labels h cls).1 !! cls = Some k1)
    as [k1 Hk1].
  { unfold TestLabel.testlabel, TestLabel.setattr_labels. simpl.
    rewrite lookup_alter_eq, Hk. simpl. eauto. }
  rewrite (Hget labels2 _ k1 Hk1), (Hget labels h k Hk).
  by rewrite (assoc_L (∪)).
Qed.

Lemma testlabel_accumulates_witness :
  TestLabel.getattr_labels
    (TestLabel.testlabel ["quick"; "slow"]
       {[ 1%positive := TestLabel.PyClass [] (Some {["base"]});
          2%positive := TestLabel.PyClass [1%positive] None ]}
       2%positive).1 2%positive ∅
  = list_to_set ["quick"; "slow"]
    ∪ TestLabel.getattr_labels
        {[ 1%positive := TestLabel.PyClass [] (Some {["base"]});
           2%positive := TestLabel.PyClass [1%positive] None ]}
        2%positive ∅.
Proof.
  apply (testlabel_accumulates ["quick"; "slow"]
           {[ 1%positive := TestLabel.PyClass [] (Some {["base"]});
              2%positive := TestLabel.PyClass [1%positive] None ]}
           2%positive (TestLabel.PyClass [1%positive] None)).
  vm_compute. reflexivity.
Defined.

(** * Further properties *)

(** ** table_data: no cell is lost *)

Lemma rows_loop_keeps_above (r' c' : Z) (s : string)
    (irows : list (Z * list cell)) :
  0 <= r' -> 0 <= c' ->
  Forall (fun ir => r' < ir.1) irows ->
  forall (data : grid) (hc : Z) (data' : grid) (hc' : Z),
    foldM table_row (data, hc) irows = Ok (data', hc') ->
    grid_at data r' c' = Some (Some s) ->
    grid_at data' r' c' = Some (Some s).
Proof.
  intros Hr' Hc'. induction irows as [| [i cells] irows IH];
    intros Hall data hc data' hc' Hfold Hs.
  - cbn [foldM] in Hfold. by inversion Hfold; subst.
  - apply Forall_cons in Hall as [Hi Hall]. simpl in Hi.
    cbn [foldM] in Hfold. unfold table_row at 1 in Hfold.
    destruct (foldM (place_cell i) (data, 0, true) cells)
      as [[[d1 j1] h1] |] eqn:E; [| discriminate].
    cbn [bind] in Hfold. eapply (IH Hall _ _ _ _ Hfold).
    eapply (cells_loop_keeps i r' c' s cells); try exact E; try lia.
    exact Hs.
Qed.

(** The cursor only moves right. *)
Lemma cells_loop_cursor (i : Z) (cells : list cell) :
  0 <= i ->
  forall (data : grid) (j : Z) (h : bool) (data' : grid) (j' : Z) (h' : bool),
    0 <= j ->
    foldM (place_cell i) (data, j, h) cells = Ok (data', j', h') ->
    j <= j'.
Proof.
  intros Hi. induction cells as [| c cells IH];
    intros data j h data' j' h' Hj Hfold.
  - cbn [foldM] in Hfold. inversion Hfold. lia.
  - cbn [foldM] in Hfold.
    destruct (place_cell i (data, j, h) c) as [[[d1 j1] h1] |] eqn:E;
      [| discriminate].
    cbn [bind] in Hfold.
    destruct (place_cell_ok_spans _ _ _ _ E) as (rs & cs & Hrs & Hcs).
    destruct (place_cell_spec i data j h c rs cs Hi Hj Hrs Hcs)
      as (d & jf & Heq & Hle & _).
    rewrite Heq in E. inversion E; subst.
    apply IH in Hfold; lia.
Qed.

(** The cells of one row land in its grid row, left to right. *)
Lemma cells_loop_places (i : Z) (cells : list cell) :
  0 <= i ->
  forall (data : grid) (j : Z) (h : bool) (data' : grid) (j' : Z) (h' : bool),
    0 <= j ->
    foldM (place_cell i) (data, j, h) cells = Ok (data', j', h') ->
    exists cols,
      Forall2 (fun cl jc =>
                 j <= jc < j'
                 /\ grid_at data' i jc = Some (Some (cell_value cl)))
              cells cols
      /\ StronglySorted Z.lt cols.
Proof.
  intros Hi. induction cells as [| c cells IH];
    intros data j h data' j' h' Hj Hfold.
  - exists []. split; constructor.
  - cbn [foldM] in Hfold.
    destruct (place_cell i (data, j, h) c) as [[[d1 j1] h1] |] eqn:E;
      [| discriminate].
    cbn [bind] in Hfold.
    destruct (place_cell_ok_spans _ _ _ _ E) as (rs & cs & Hrs & Hcs).
    destruct (place_cell_spec i data j h c rs cs Hi Hj Hrs Hcs)
      as (d & jf & Heq & Hle & _ & _ & Hat & _).
    rewrite Heq in E. inversion E; subst d1 j1 h1.
    assert (jf + 1 <= j') as Hjj'.
    { eapply (cells_loop_cursor i cells Hi); [| exact Hfold]. lia. }
    destruct (IH d (jf + 1) (if is_header_cell c then h else false)
                 data' j' h') as (cols & Hall & Hsort);
      [lia | done |].
    exists (jf :: cols). split.
    + constructor.
      * split; [lia |].
        eapply (cells_loop_keeps i i jf _ cells); try exact Hfold; try lia.
        done.
      * eapply Forall2_impl; [exact Hall |]. simpl. intros ? ? [? ?].
        split; [lia | done].
    + constructor; [done |].
      clear -Hall. induction Hall as [| ? ? ? ? [? _] _ IHa]; constructor.
      * lia.
      * exact IHa.
Qed.

Lemma rows_loop_places (irows : list (Z * list cell)) :
  Forall (fun ir => 0 <= ir.1) irows ->
  StronglySorted (fun a b => a.1 < b.1) irows ->
  forall (data : grid) (hc : Z) (data' : grid) (hc' : Z),
    foldM table_row (data, hc) irows = Ok (data', hc') ->
    forall i cells, (i, cells) ∈ irows ->
      exists cols,
        Forall2 (fun cl jc =>
                   0 <= jc
                   /\ grid_at data' i jc = Some (Some (cell_value cl)))
                cells cols
        /\ StronglySorted Z.lt cols.
Proof.
  induction irows as [| [i0 cells0] irows IH];
    intros Hnn Hsort data hc data' hc' Hfold i cells Hin.
  - by apply elem_of_nil in Hin.
  - apply Forall_cons in Hnn as [Hi0 Hnn]. simpl in Hi0.
    apply StronglySorted_inv in Hsort as [Hsort Hlt].
    cbn [foldM] in Hfold. unfold table_row at 1 in Hfold.
    destruct (foldM (place_cell i0) (data, 0, true) cells0)
      as [[[d1 j1] h1] |] eqn:E; [| discriminate].
    cbn [bind] in Hfold.
    apply elem_of_cons in Hin as [Heq | Hin].
    + inversion Heq; subst i cells.
      destruct (cells_loop_places i0 cells0 Hi0 data 0 true d1 j1 h1)
        as (cols & Hall & Hs); [lia | exact E |].
      exists cols. split; [| done].
      eapply Forall2_impl; [exact Hall |]. intros cl jc [Hjc Hat].
      split; [lia |].
      eapply (rows_loop_keeps_above i0 jc); try exact Hfold; try done; lia.
    + by eapply (IH Hnn Hsort _ _ _ _ Hfold).
Qed.

Lemma enumerate_sorted {A : Type} (l : list A) :
  StronglySorted (fun a b : Z * A => a.1 < b.1) (enumerate l).
Proof.
  unfold enumerate. generalize 0 as k.
  induction l as [| x l IH]; intros k.
  - unfold len. simpl. constructor.
  - replace (len (x :: l)) with (Z.succ (len l)) by (unfold len; simpl; lia).
    rewrite seqZ_cons by (unfold len; lia). rewrite Z.pred_succ.
    cbn [zip zip_with]. constructor; [apply IH |].
    apply Forall_forall. intros [i y] Hin.
    apply elem_of_zip_l, elem_of_seqZ in Hin. simpl. lia.
Qed.

Lemma enumerate_lookup {A : Type} (l : list A) (n : nat) (x : A) :
  l !! n = Some x -> (Z.of_nat n, x) ∈ enumerate l.
Proof.
  intros Hx. unfold enumerate. apply list_elem_of_lookup. exists n.
  apply lookup_zip_with_Some. exists (Z.of_nat n), x.
  split; [done |]. split; [| done].
  apply lookup_seqZ. apply lookup_lt_Some in Hx. unfold len. lia.
Qed.

(** X1.  No cell is lost: in the grid [table_data] returns, every cell
    of physical row [n] is read back, with its stripped text, in grid row
    [n]; the cells of the row sit at strictly increasing columns in
    document order.  (A later cell may overwrite the copies a span made,
    never the slot another cell was placed at.) *)
Theorem table_data_keeps_every_cell (table : html_table) (data : grid)
    (header_count : Z) (n : nat) (row : list cell) :
  table_data table = Ok (data, header_count) ->
  table !! n = Some row ->
  exists cols,
    Forall2 (fun cl jc =>
               0 <= jc
               /\ grid_at data (Z.of_nat n) jc = Some (Some (cell_value cl)))
            row cols
    /\ StronglySorted Z.lt cols.
Proof.
  intros Htd Hrow. unfold table_data in Htd.
  eapply (rows_loop_places (enumerate table)); try exact Htd.
  - apply enumerate_fst_nonneg.
  - apply enumerate_sorted.
  - by apply enumerate_lookup.
Qed.

Lemma table_data_keeps_every_cell_witness :
  exists cols,
    Forall2 (fun cl jc =>
               0 <= jc
               /\ grid_at [[Some "H"; Some "Y"]; [Some "B"; Some "B"]]
                          (Z.of_nat 1) jc
                  = Some (Some (cell_value cl)))
            [Cell td (Some "B") None (Some "2")] cols
    /\ StronglySorted Z.lt cols.
Proof.
  apply (table_data_keeps_every_cell
           [[Cell th (Some "H") None None;
             Cell th (Some "Y") (Some " 2 ") (Some "")];
            [Cell td (Some "B") None (Some "2")]]
           _ 1 1 [Cell td (Some "B") None (Some "2")]);
    vm_compute; reflexivity.
Defined.

(** ** table_data: nothing is invented *)

Section Origin.
Context {T : Type} (Q : T -> Prop).

Lemma grow_from (d : T) (self : list T) (index : Z) :
  Forall Q self -> Q d -> Forall Q (GrowingList.grow d self index).
Proof.
  intros Hs Hd. rewrite grow_eq. apply Forall_app. split; [done |].
  by apply Forall_replicate.
Qed.

Lemma list_getitem_from (l : list T) (index : Z) (x : T) :
  Forall Q l -> list_getitem l index = Ok x -> Q x.
Proof.
  intros Hl. unfold list_getitem. destruct (_ || _); [discriminate |].
  destruct (l !! _) as [y |] eqn:E; [| discriminate].
  intros Heq. inversion Heq; subst. by eapply Forall_lookup_1.
Qed.

Lemma list_setitem_from (l l' : list T) (index : Z) (v : T) :
  Forall Q l -> Q v -> list_setitem l index v = Ok l' -> Forall Q l'.
Proof.
  intros Hl Hv. unfold list_setitem. destruct (_ || _); [discriminate |].
  intros Heq. inversion Heq; subst. by apply Forall_insert.
Qed.
End Origin.

Lemma grid_setitem_from (P : string -> Prop) (data data' : grid) (r c : Z)
    (v : string) :
  grid_from P data -> P v ->
  grid_setitem data r c (Some v) = Ok data' -> grid_from P data'.
Proof.
  unfold grid_from, grid_setitem, data_getitem, row_setitem.
  unfold GrowingList.getitem, GrowingList.setitem. intros Hd Hv.
  assert (Forall (Forall (slot_from P)) (GrowingList.grow [] data r)) as Hg.
  { by apply grow_from. }
  destruct (list_getitem (GrowingList.grow [] data r) r) as [row |] eqn:E;
    [| discriminate].
  cbn [bind]. apply (list_getitem_from _ _ _ _ Hg) in E.
  destruct (list_setitem (GrowingList.grow None row c) c (Some v))
    as [row1 |] eqn:E1; [| discriminate].
  cbn [bind]. intros Heq. inversion Heq; subst. unfold store_row.
  apply Forall_insert; [done |].
  eapply (list_setitem_from _ _ _ _ _ _ _ E1).
  Unshelve. - by apply grow_from. - done.
Qed.

Lemma fill_rect_from (P : string -> Prop) (i j : Z) (v : string)
    (rowspan colspan : Z) (data data' : grid) :
  grid_from P data -> P v ->
  fill_rect data i j v rowspan colspan = Ok data' -> grid_from P data'.
Proof.
  intros Hd Hv. unfold fill_rect. revert data Hd.
  induction (range rowspan) as [| di dis IH]; intros data Hd Hfold.
  - cbn [foldM] in Hfold. by inversion Hfold; subst.
  - cbn [foldM] in Hfold.
    destruct (foldM _ data (range colspan)) as [d1 |] eqn:E; [| discriminate].
    cbn [bind] in Hfold. apply (IH d1); [| done].
    clear Hfold IH. revert data Hd E.
    induction (range colspan) as [| dj djs IHc]; intros data Hd E.
    + cbn [foldM] in E. by inversion E; subst.
    + cbn [foldM] in E.
      destruct (grid_setitem data (i + di) (j + dj) (Some v)) as [d2 |] eqn:E2;
        [| discriminate].
      cbn [bind] in E. apply (IHc d2); [| done].
      by eapply grid_setitem_from.
Qed.

Lemma push_data_loop_from (P : string -> Prop) (row : row_buffer) (i : Z) :
  Forall (slot_from P) row ->
  Forall (slot_from P) (push_data_loop row i).1.1.
Proof.
  apply (push_data_loop_elim
           (fun row i res =>
              Forall (slot_from P) row -> Forall (slot_from P) res.1.1)).
  - intros r j row' s e IH _ Hr. apply IH.
    unfold row_getitem, GrowingList.getitem in e. inversion e.
    by apply grow_from.
  - intros r j row' e _ Hr. simpl.
    unfold row_getitem, GrowingList.getitem in e. inversion e.
    by apply grow_from.
  - intros r j row' e e1 _ Hr. simpl.
    unfold row_getitem, GrowingList.getitem in e1. inversion e1.
    by apply grow_from.
Qed.

Lemma push_data_from (P : string -> Prop) (row row' : row_buffer) (i k : Z)
    (v : string) :
  Forall (slot_from P) row -> P v ->
  push_data row i (Some v) = (row', Ok k) -> Forall (slot_from P) row'.
Proof.
  intros Hr Hv. unfold push_data.
  pose proof (push_data_loop_from P row i Hr) as Hl.
  destruct (push_data_loop row i) as [[row1 i1] pending]. simpl in Hl.
  assert (forall row2 r,
            row_setitem row1 i1 (Some v) = (row2, r) ->
            is_ok r = true -> Forall (slot_from P) row2) as Hset.
  { intros row2 r. unfold row_setitem, GrowingList.setitem.
    destruct (list_setitem _ _ _) as [row3 |] eqn:E.
    - intros Heq _. inversion Heq; subst.
      eapply (list_setitem_from _ _ _ _ _ _ _ E).
    - intros Heq. by inversion Heq; subst. }
  destruct pending as [[] |];
    try (intros Heq; inversion Heq; fail);
    destruct (row_setitem row1 i1 (Some v)) as [row2 r] eqn:E;
    intros Heq; inversion Heq; subst;
    apply (Hset _ _ eq_refl); by destruct r.
  Unshelve. all: try done. all: by apply grow_from.
Qed.

Lemma place_cell_from (P : string -> Prop) (i : Z) (data : grid) (j : Z)
    (h : bool) (c : cell) (data' : grid) (j' : Z) (h' : bool) :
  grid_from P data -> P (cell_value c) ->
  place_cell i (data, j, h) c = Ok (data', j', h') -> grid_from P data'.
Proof.
  intros Hd Hv. unfold place_cell.
  destruct (span (cell_rowspan c)); [| discriminate].
  destruct (span (cell_colspan c)); [| discriminate]. cbn [bind].
  unfold data_getitem, GrowingList.getitem.
  assert (grid_from P (GrowingList.grow [] data i)) as Hg.
  { unfold grid_from. by apply grow_from. }
  destruct (list_getitem (GrowingList.grow [] data i) i) as [row |] eqn:E;
    [| discriminate].
  cbn [bind]. apply (list_getitem_from _ _ _ _ Hg) in E.
  destruct (push_data row j (Some (cell_value c))) as [row2 [k |]] eqn:Ep;
    [| discriminate].
  cbn [bind]. apply (push_data_from P) in Ep; [| done | done].
  destruct (fill_rect _ _ _ _ _ _) as [d3 |] eqn:Ef; [| discriminate].
  cbn [bind]. intros Heq. inversion Heq; subst.
  eapply fill_rect_from; [| exact Hv | exact Ef].
  unfold store_row, grid_from. by apply Forall_insert.
Qed.

Lemma rstrip_spec (chars : list ascii) (s : string) :
  exists w,
    s = rstrip chars s +:+ w
    /\ only_chars chars w = true
    /\ (forall ch, last_char (rstrip chars s) = Some ch -> ch ∉ chars).
Proof.
  induction s as [| c t (w & Ht & Hw & Hlast)].
  - exists EmptyString. by split_and!.
  - simpl. destruct (rstrip chars t) as [| c' r] eqn:E.
    + simpl in Ht. subst t. case_bool_decide as Hc.
      * exists (String c w). split_and!; [done | | done].
        simpl. rewrite Hw. by rewrite bool_decide_eq_true_2.
      * exists w. split_and!; [done | done |].
        intros ch Hch. by inversion Hch; subst.
    + exists w. split_and!; [| done | exact Hlast].
      change (String c (String c' r) +:+ w) with (String c (String c' r +:+ w)).
      by rewrite <- Ht.
Qed.

(** X2.  Nothing is invented: every string in the grid [table_data]
    returns is the stripped text of a cell of the table, that is the
    cell's first text node (or [''] without one) less a trailing run of
    carriage returns, newlines, tabs and spaces; it does not end in one
    of those characters. *)
Theorem table_data_strings_come_from_cells (table : html_table)
    (data : grid) (header_count : Z) (r c : Z) (s : string) :
  table_data table = Ok (data, header_count) ->
  grid_at data r c = Some (Some s) ->
  exists row cl w,
    row ∈ table /\ cl ∈ row /\ s = cell_value cl
    /\ default EmptyString (cell_text cl) = s +:+ w
    /\ only_chars stripped w = true
    /\ (forall ch, last_char s = Some ch -> ch ∉ stripped).
Proof.
  intros Htd Hat.
  cut (exists row cl, row ∈ table /\ cl ∈ row /\ s = cell_value cl).
  { intros (row & cl & Hrow & Hcl & ->).
    destruct (rstrip_spec stripped (default EmptyString (cell_text cl)))
      as (w & Hw1 & Hw2 & Hw3).
    by exists row, cl, w. }
  revert Hat.
  set (P := fun s => exists row cl,
                       row ∈ table /\ cl ∈ row /\ s = cell_value cl).
  assert (grid_from P data) as Hfrom.
  { unfold table_data in Htd.
    assert (Forall (fun ir : Z * list cell => ir.2 ∈ table) (enumerate table))
      as Hmem.
    { apply Forall_forall. intros [i row] Hin. simpl.
      rewrite <- (enumerate_snd table) at 1.
      apply list_elem_of_fmap. by exists (i, row). }
    assert (grid_from P []) as H0 by constructor.
    revert Htd Hmem H0. generalize (@nil row_buffer) as d0.
    generalize 0 as hc0. induction (enumerate table) as [| [i row] irows IH];
      intros hc0 d0 Hfold Hmem H0.
    - cbn [foldM] in Hfold. by inversion Hfold; subst.
    - apply Forall_cons in Hmem as [Hrow Hmem]. simpl in Hrow.
      cbn [foldM] in Hfold. unfold table_row at 1 in Hfold.
      destruct (foldM (place_cell i) (d0, 0, true) row)
        as [[[d1 j1] h1] |] eqn:E; [| discriminate].
      cbn [bind] in Hfold. eapply (IH _ _ Hfold Hmem).
      assert (forall cl, cl ∈ row -> P (cell_value cl)) as Hcells.
      { intros cl Hcl. by exists row, cl. }
      clear Hfold IH Hrow. revert E Hcells H0.
      generalize true as h0. generalize 0 as j0. revert d0.
      induction row as [| cl cells IHc]; intros d0 j0 h0 E Hcells H0.
      + cbn [foldM] in E. by inversion E; subst.
      + cbn [foldM] in E.
        destruct (place_cell i (d0, j0, h0) cl) as [[[d2 j2] h2] |] eqn:E2;
          [| discriminate].
        cbn [bind] in E. eapply (IHc _ _ _ E).
        * intros cl' Hcl'. apply Hcells. by right.
        * eapply place_cell_from; [exact H0 | | exact E2].
          apply Hcells. left. }
  unfold grid_at. intros Hat.
  destruct (data !! Z.to_nat r) as [row |] eqn:Er; [| discriminate].
  simpl in Hat.
  pose proof (Forall_lookup_1 _ _ _ _ Hfrom Er) as Hrow.
  exact (Forall_lookup_1 _ _ _ _ Hrow Hat).
Qed.

Lemma table_data_strings_come_from_cells_witness :
  exists row cl w,
    row ∈ [[Cell th (Some "X  ") (Some "2") None];
           [Cell td (Some "a") None None]]
    /\ cl ∈ row /\ "X" = cell_value cl
    /\ default EmptyString (cell_text cl) = "X" +:+ w
    /\ only_chars stripped w = true
    /\ (forall ch, last_char "X" = Some ch -> ch ∉ stripped).
Proof.
  apply (table_data_strings_come_from_cells
           [[Cell th (Some "X  ") (Some "2") None];
            [Cell td (Some "a") None None]]
           [[Some "X"]; [Some "X"; Some "a"]] 1 1 0 "X");
    vm_compute; reflexivity.
Defined.

(** ** parse: when it raises, and which rows it reads *)











(** ** split_url: where it cuts, and when it raises *)

Lemma url_matches_no_question_mark (url : string) :
  occurs "?" url = false -> url_matches url = [].
Proof.
  intros Hq. unfold url_matches. apply flat_map_nil.
  intros [m r] Hin. simpl. destruct r as [| c rest]; [done |].
  case_bool_decide; [| done]. subst c.
  assert (occurs "?" url = true); [| congruence].
  by apply (dot_star_rest _ _ m (String "?" rest) Hin).
Qed.

Lemma search_no_question_mark (url : string) :
  occurs "?" url = false -> search_base_params url = None.
Proof.
  intros Hq. unfold search_base_params.
  by rewrite url_matches_no_question_mark.
Qed.

(** X5.  A URL without a question mark has no query string: [split_url]
    raises (the search returns [None], whose [group] is an attribute
    error) instead of returning an empty mapping. *)
Theorem split_url_needs_query (url : string) :
  occurs "?" url = false -> split_url url = Raise AttributeError.
Proof.
  intros Hq. unfold split_url. by rewrite search_no_question_mark.
Qed.

Lemma split_url_needs_query_witness :
  split_url "https://www.boltdepot.com/Hex_nuts.aspx" = Raise AttributeError.
Proof.
  apply (split_url_needs_query "https://www.boltdepot.com/Hex_nuts.aspx").
  vm_compute. reflexivity.
Defined.

(** The search cuts at the last question mark. *)
Lemma search_last_question_mark (base params : string) :
  occurs newline base = false ->
  occurs "?" params = false -> occurs newline params = false ->
  search_base_params (base +:+ String "?" params) = Some (base, params).
Proof.
  intros Hn Hpq Hpn. unfold search_base_params.
  induction base as [| c base IH].
  - change (EmptyString +:+ String "?" params) with (String "?" params).
    unfold url_matches. simpl dot_star.
    rewrite flat_map_app, flat_map_nil.
    + simpl. rewrite app_nil_r. by apply params_matches_first.
    + intros [m r] Hin. apply list_elem_of_fmap in Hin as ([m' r'] & Heq & Hin).
      inversion Heq; subst. simpl. destruct r' as [| c' r']; [done |].
      case_bool_decide; [| done]. subst c'.
      assert (occurs "?" params = true); [| congruence].
      by apply (dot_star_rest _ _ m' (String "?" r') Hin).
  - simpl in Hn. apply orb_false_iff in Hn as [Hcn Hn].
    specialize (IH Hn).
    change (String c base +:+ String "?" params)
      with (String c (base +:+ String "?" params)).
    unfold url_matches in *. simpl dot_star. rewrite Hcn.
    rewrite flat_map_app.
    set (f := fun br : string * string =>
                match br.2 with
                | String c0 rest =>
                  if bool_decide (c0 = "?"%char)
                  then params_matches br.1 rest else []
                | EmptyString => []
                end) in *.
    destruct (flat_map f (dot_star (base +:+ String "?" params)))
      as [| [b0 p0] more] eqn:E; [discriminate |].
    simpl in IH. inversion IH; subst b0 p0.
    assert (forall l,
              head (flat_map f l) = Some (base, params) ->
              head (flat_map f (map (fun mr => (String c mr.1, mr.2)) l))
              = Some (String c base, params)) as Hmap.
    { clear. induction l as [| [m r] l IHl]; [done |]. simpl.
      unfold f at 1 3. simpl. destruct r as [| c0 r].
      - simpl. exact IHl.
      - case_bool_decide; [| exact IHl].
        unfold params_matches.
        induction (dot_star r) as [| [pm pr] ds IHd]; [exact IHl |].
        simpl. destruct (at_dollar pr); [| exact IHd].
        simpl. by inversion 1. }
    specialize (Hmap (dot_star (base +:+ String "?" params))).
    rewrite E in Hmap. specialize (Hmap eq_refl).
    destruct (flat_map f (map _ _)) as [| x xs]; [discriminate |].
    exact Hmap.
Qed.

(** X6.  [split_url] cuts at the last question mark: for a URL without
    newline, the base is everything before the last question mark, further
    question marks included, and the parameters are the pieces between the
    ampersands after it. *)
Theorem split_url_cuts_at_last_question_mark (base params : string) :
  occurs newline base = false ->
  occurs "?" params = false -> occurs newline params = false ->
  split_url (base +:+ "?" +:+ params)
  = (let! pairs := mapM key_value (split "&" params) in
     Ok (base, dict_of_pairs pairs)).
Proof.
  intros Hn Hpq Hpn. unfold split_url.
  change (base +:+ "?" +:+ params) with (base +:+ String "?" params).
  by rewrite search_last_question_mark.
Qed.

Lemma split_url_cuts_at_last_question_mark_witness :
  split_url ("http://h/a?b" +:+ "?" +:+ "product=12")
  = (let! pairs := mapM key_value (split "&" "product=12") in
     Ok ("http://h/a?b", dict_of_pairs pairs)).
Proof.
  apply (split_url_cuts_at_last_question_mark "http://h/a?b" "product=12");
    vm_compute; reflexivity.
Defined.

Lemma split_length (sep : ascii) (s : string) :
  length (split sep s) = S (count_char sep s).
Proof.
  induction s as [| c s IH]; [done |]. simpl.
  case_bool_decide; simpl; [by rewrite IH |].
  destruct (split sep s); simpl in *; lia.
Qed.

Lemma key_value_ok (p : string) :
  is_ok (key_value p) = bool_decide (count_char "=" p = 1%nat).
Proof.
  unfold key_value. pose proof (split_length "=" p) as Hl.
  destruct (split "=" p) as [| k [| v [| x l]]]; simpl in *;
    case_bool_decide; try done; lia.
Qed.

Lemma key_value_raise (p : string) (e : exn) :
  key_value p = Raise e -> e = ValueError.
Proof.
  unfold key_value. destruct (split "=" p) as [| k [| v [| x l]]];
    by inversion 1.
Qed.

Lemma mapM_key_value_ok (pieces : list string) :
  is_ok (mapM key_value pieces)
  = forallb (fun p => bool_decide (count_char "=" p = 1%nat)) pieces.
Proof.
  induction pieces as [| p pieces IH]; [done |].
  cbn [mapM forallb]. rewrite <- key_value_ok, <- IH.
  destruct (key_value p); [| done]. cbn [bind].
  by destruct (mapM key_value pieces).
Qed.

Lemma mapM_key_value_raise (pieces : list string) (e : exn) :
  mapM key_value pieces = Raise e -> e = ValueError.
Proof.
  induction pieces as [| p pieces IH]; [discriminate |].
  cbn [mapM]. destruct (key_value p) eqn:Ek.
  - cbn [bind]. destruct (mapM key_value pieces); [discriminate |].
    cbn [bind]. intros Heq. inversion Heq; subst. by apply IH.
  - cbn [bind]. intros Heq. inversion Heq; subst. by eapply key_value_raise.
Qed.

(** X7.  After the cut, [split_url] returns a mapping exactly when every
    piece between ampersands has exactly one equals sign; otherwise it
    raises ValueError.  An empty query string is one empty piece, so a URL
    that ends in its question mark raises. *)
Theorem split_url_parameters (base params : string) :
  occurs newline base = false ->
  occurs "?" params = false -> occurs newline params = false ->
  (forallb (fun p => bool_decide (count_char "=" p = 1%nat))
           (split "&" params) = true ->
   exists mapping, split_url (base +:+ "?" +:+ params) = Ok (base, mapping))
  /\ (forallb (fun p => bool_decide (count_char "=" p = 1%nat))
              (split "&" params) = false ->
      split_url (base +:+ "?" +:+ params) = Raise ValueError)
  /\ (params = EmptyString ->
      split_url (base +:+ "?" +:+ params) = Raise ValueError).
Proof.
  intros Hn Hpq Hpn.
  change (base +:+ "?" +:+ params) with (base +:+ String "?" params).
  unfold split_url. rewrite search_last_question_mark by done.
  pose proof (mapM_key_value_ok (split "&" params)) as Hok.
  split; [| split].
  - intros Hall. rewrite Hall in Hok.
    destruct (mapM key_value (split "&" params)); [| discriminate].
    cbn [bind]. by eexists.
  - intros Hbad. rewrite Hbad in Hok.
    destruct (mapM key_value (split "&" params)) eqn:E; [discriminate |].
    cbn [bind]. by rewrite (mapM_key_value_raise _ _ E).
  - by intros ->.
Qed.

Lemma split_url_parameters_witness :
  split_url ("http://h/p" +:+ "?" +:+ "a=1&b") = Raise ValueError.
Proof.
  apply (proj1 (proj2 (split_url_parameters "http://h/p" "a=1&b"
                         eq_refl eq_refl eq_refl))).
  vm_compute. reflexivity.
Defined.

Lemma dict_of_pairs_last {K V : Type} `{Countable K} (pairs : list (K * V))
    (k : K) :
  dict_of_pairs pairs !! k
  = snd <$> last (filter (fun kv => kv.1 = k) pairs).
Proof.
  induction pairs as [| [k0 v0] pairs IH] using rev_ind; [done |].
  rewrite dict_of_pairs_snoc, filter_app, filter_cons, filter_nil. simpl.
  destruct (decide (k0 = k)) as [-> | Hne].
  - by rewrite lookup_insert_eq, last_snoc.
  - rewrite lookup_insert_ne by done. by rewrite app_nil_r.
Qed.

(** X8.  When a key occurs more than once in the query string, the
    mapping [split_url] returns holds the value of its last occurrence:
    the mapping sends a key to the value of the last [key=value] piece
    with that key, and has no other key. *)
Theorem split_url_last_parameter_wins (url base : string)
    (mapping : gmap string string) :
  split_url url = Ok (base, mapping) ->
  exists params pairs,
    search_base_params url = Some (base, params)
    /\ mapM key_value (split "&" params) = Ok pairs
    /\ forall k, mapping !! k
                 = snd <$> last (filter (fun kv => kv.1 = k) pairs).
Proof.
  unfold split_url. intros Hs.
  destruct (search_base_params url) as [[b params] |]; [| discriminate].
  destruct (mapM key_value (split "&" params)) as [pairs |] eqn:E;
    [| discriminate].
  cbn [bind] in Hs. inversion Hs; subst.
  exists params, pairs. split_and!; [done | done |].
  intros k. apply dict_of_pairs_last.
Qed.

Lemma split_url_last_parameter_wins_witness :
  exists params pairs,
    search_base_params "p?k=1&j=2&k=3" = Some ("p", params)
    /\ mapM key_value (split "&" params) = Ok pairs
    /\ forall k, ({[ "k" := "3"; "j" := "2" ]} : gmap string string) !! k
                 = snd <$> last (filter (fun kv => kv.1 = k) pairs).
Proof.
  apply (split_url_last_parameter_wins "p?k=1&j=2&k=3" "p"
           {[ "k" := "3"; "j" := "2" ]}).
  vm_compute. reflexivity.
Defined.

(** ** parse_product_detail *)

Lemma parse_product_detail_eq (page : detail_page) (base : string)
    (params : gmap string string) (id : string) :
  split_url (page_url page) = Ok (base, params) ->
  params !! "product" = Some id ->
  parse_product_detail page
  = Ok (let pd : product_data :=
          <["id" := PyStr id]>
            (<["name" := heading_value (page_heading page)]>
               (<["url" := PyStr (page_url page)]>
                  {["details" := PyDict (page_details (page_rows page))]})) in
        if truthy (page_image page)
        then <["image_url" := default PyNone (PyStr <$> page_image page)]> pd
        else pd).
Proof.
  intros Hs Hp. unfold parse_product_detail. rewrite Hs. cbn [bind].
  rewrite Hp. cbn [bind]. f_equal.
  destruct (page_image page) as [[| c s] |]; reflexivity.
Qed.



Lemma page_details_snoc (rows : list (option string * option string))
    (row : option string * option string) :
  page_details (rows ++ [row]) = add_detail (page_details rows) row.
Proof. unfold page_details. by rewrite foldl_app. Qed.

Lemma truthy_iff (s : string) : truthy (Some s) = true <-> s <> EmptyString.
Proof. destruct s; simpl; split; congruence. Qed.

(** X10.  The [details] mapping holds exactly the rows of the property
    table whose name and value are both present and non-empty: every
    entry is such a row, every such row's name is a key, neither the empty
    string nor a missing text is ever a key or a value, and when a name
    occurs in several such rows the last one gives the value. *)
Theorem page_details_rows (rows : list (option string * option string)) :
  (forall k v, page_details rows !! k = Some v ->
               (Some k, Some v) ∈ rows
               /\ k <> EmptyString /\ v <> EmptyString)
  /\ (forall k v, (Some k, Some v) ∈ rows ->
                  k <> EmptyString -> v <> EmptyString ->
                  is_Some (page_details rows !! k))
  /\ (forall k v, k <> EmptyString -> v <> EmptyString ->
                  page_details (rows ++ [(Some k, Some v)]) !! k = Some v)
  /\ (forall row k v, page_details rows !! k = Some v ->
                      row.1 <> Some k \/ truthy row.2 = false ->
                      page_details (rows ++ [row]) !! k = Some v).
Proof.
  split; [| split; [| split]].
  - induction rows as [| [ok ov] rows IH] using rev_ind; intros k v Hl.
    + done.
    + rewrite page_details_snoc in Hl. unfold add_detail in Hl.
      assert (page_details rows !! k = Some v ->
              (Some k, Some v) ∈ rows ++ [(ok, ov)]
              /\ k <> EmptyString /\ v <> EmptyString) as Hold.
      { intros H. destruct (IH k v H) as (? & ? & ?).
        split_and!; [| done | done]. apply elem_of_app. by left. }
      destruct ok as [k0 |], ov as [v0 |]; try by apply Hold.
      destruct (truthy (Some k0) && truthy (Some v0)) eqn:Et;
        [| by apply Hold].
      apply andb_true_iff in Et as [Hk0 Hv0].
      apply truthy_iff in Hk0, Hv0.
      apply lookup_insert_Some in Hl as [[-> ->] | [_ Hl]]; [| by apply Hold].
      split_and!; [| done | done]. apply elem_of_app. right. left.
  - induction rows as [| [ok ov] rows IH] using rev_ind;
      intros k v Hin Hk Hv.
    + by apply elem_of_nil in Hin.
    + rewrite page_details_snoc. unfold add_detail.
      apply elem_of_app in Hin as [Hin | Hin].
      * specialize (IH k v Hin Hk Hv).
        destruct ok as [k0 |], ov as [v0 |]; try done.
        destruct (truthy (Some k0) && truthy (Some v0)); [| done].
        destruct (decide (k0 = k)) as [-> | Hne].
        -- rewrite lookup_insert_eq. by eexists.
        -- by rewrite lookup_insert_ne.
      * apply list_elem_of_singleton in Hin. inversion Hin; subst.
        apply truthy_iff in Hk, Hv. rewrite Hk, Hv. simpl.
        rewrite lookup_insert_eq. by eexists.
  - intros k v Hk Hv. rewrite page_details_snoc. unfold add_detail.
    apply truthy_iff in Hk, Hv. rewrite Hk, Hv. simpl.
    apply lookup_insert_eq.
  - intros [ok ov] k v Hl Hrow. rewrite page_details_snoc.
    unfold add_detail. simpl in Hrow.
    destruct ok as [k0 |], ov as [v0 |]; try done.
    destruct (truthy (Some k0) && truthy (Some v0)) eqn:Et; [| done].
    apply andb_true_iff in Et as [_ Hv0].
    destruct Hrow as [Hne | Hf]; [| congruence].
    rewrite lookup_insert_ne; [done |]. congruence.
Qed.

Lemma page_details_rows_witness :
  (Some "Dia", Some "3/8")
    ∈ [(Some "Dia", Some "1/4"); (Some "", Some "x");
       (Some "Len", None); (Some "Dia", Some "3/8")]
  /\ "Dia" <> EmptyString /\ "3/8" <> EmptyString.
Proof.
  apply (proj1 (page_details_rows
                  [(Some "Dia", Some "1/4"); (Some "", Some "x");
                   (Some "Len", None); (Some "Dia", Some "3/8")])
               "Dia" "3/8").
  vm_compute. reflexivity.
Defined.

(** X11.  The record has an [image_url] entry exactly when the page has
    a product image with a non-empty [src].  Read back by the csv block,
    a record of a page with a heading therefore passes the core-field
    lookup [item[k] for k in KEYS] when the page had such an image, and
    raises KeyError when it had none. *)
Theorem product_image_and_core_fields (page : detail_page)
    (pd : product_data) :
  parse_product_detail page = Ok pd ->
  (pd !! "image_url"
   = if truthy (page_image page) then PyStr <$> page_image page else None)
  /\ item_details (item_of_product pd) = page_details (page_rows page)
  /\ (page_heading page <> None ->
      core_fields (item_of_product pd)
      = if truthy (page_image page)
        then Ok (item_fields (item_of_product pd))
        else Raise KeyError).
Proof.
  intros Hp.
  assert (exists base params id,
            split_url (page_url page) = Ok (base, params)
            /\ params !! "product" = Some id) as (base & params & id & Hs & Hid).
  { unfold parse_product_detail in Hp.
    destruct (split_url (page_url page)) as [[b p] |]; [| discriminate].
    cbn [bind] in Hp.
    destruct (p !! "product") as [i |] eqn:E; [| discriminate]. eauto. }
  rewrite (parse_product_detail_eq page base params id Hs Hid) in Hp.
  inversion Hp as [Hpd]. clear Hp Hpd pd.
  cbv zeta.
  split; [| split].
  - destruct (page_image page) as [[| c s] |]; by simplify_map_eq.
  - unfold item_of_product. simpl.
    destruct (truthy (page_image page)); by simplify_map_eq.
  - intros Hh. destruct (page_heading page) as [h |] eqn:Eh; [| done].
    unfold core_fields, item_of_product. cbn [item_fields].
    assert ("image_url" ∈ KEYS) as Himg by (vm_compute; reflexivity).
    destruct (page_image page) as [[| c s] |] eqn:Ei; cbn [truthy].
    + rewrite decide_False; [done |]. intros Hsub.
      apply Hsub, elem_of_dom in Himg as [v Hv].
      rewrite lookup_omap in Hv. by simplify_map_eq.
    + rewrite decide_True.
      * (* the four entries are the core keys: the filter keeps them all *)
        reflexivity.
      * intros k Hk. apply elem_of_dom. rewrite lookup_omap.
        unfold KEYS in Hk. rewrite elem_of_list_to_set in Hk.
        repeat (apply elem_of_cons in Hk as [-> | Hk];
                [simplify_map_eq; by eexists |]).
        by apply elem_of_nil in Hk.
    + rewrite decide_False; [done |]. intros Hsub.
      apply Hsub, elem_of_dom in Himg as [v Hv].
      rewrite lookup_omap in Hv. by simplify_map_eq.
Qed.

Lemma product_image_and_core_fields_witness :
  core_fields
    (item_of_product
       ({[ "id" := PyStr "12"; "name" := PyStr "Hex bolt";
           "url" := PyStr "p?product=12";
           "details" := PyDict (∅ : gmap string string) ]} : product_data))
  = Raise KeyError.
Proof.
  assert (parse_product_detail
            (DetailPage "p?product=12" (Some "Hex bolt") [] None)
          = Ok ({[ "id" := PyStr "12"; "name" := PyStr "Hex bolt";
                   "url" := PyStr "p?product=12";
                   "details" := PyDict (∅ : gmap string string) ]}
                : product_data)) as Hp
    by (vm_compute; reflexivity).
  apply (proj2 (proj2 (product_image_and_core_fields _ _ Hp))).
  discriminate.
Defined.

(** ** The write loop of the csv block *)










(** ** The scrape block *)

Lemma string_length_app (a b : string) :
  String.length (a +:+ b) = (String.length a + String.length b)%nat.
Proof. induction a as [| c a IH]; [done |]. simpl. by rewrite IH. Qed.

Lemma string_app_inv_tail (a b s : string) : a +:+ s = b +:+ s -> a = b.
Proof.
  revert b. induction a as [| c a IH]; intros b Heq.
  - destruct b as [| c' b]; [done |].
    apply (f_equal String.length) in Heq.
    rewrite !string_length_app in Heq. simpl in Heq. lia.
  - destruct b as [| c' b].
    + apply (f_equal String.length) in Heq.
      rewrite !string_length_app in Heq. simpl in Heq. lia.
    + simpl in Heq. inversion Heq; subst. f_equal. by apply IH.
Qed.

Lemma feed_filename_inj (prefix n1 n2 : string) :
  feed_filename prefix n1 = feed_filename prefix n2 -> n1 = n2.
Proof.
  unfold feed_filename. intros Heq.
  apply (inj (String.app prefix)) in Heq.
  apply (inj (String.app "scrape-")) in Heq.
  by apply string_app_inv_tail in Heq.
Qed.

Lemma cleared_lookup (prefix : string) (names : list string)
    (fs : filesystem) (f : string) :
  foldl (fun fs name => delete (feed_filename prefix name) fs) fs names !! f
  = if decide (f ∈ feed_filename prefix <$> names) then None else fs !! f.
Proof.
  revert fs. induction names as [| n names IH]; intros fs;
    cbn [foldl fmap list_fmap].
  - destruct (decide (f ∈ [])) as [H |]; [by apply elem_of_nil in H | done].
  - rewrite IH.
    destruct (decide (f ∈ feed_filename prefix <$> names)) as [Hin | Hout],
             (decide (f ∈ feed_filename prefix n
                          :: (feed_filename prefix <$> names)))
               as [Hin' | Hout']; try done.
    + exfalso. apply Hout'. by right.
    + apply elem_of_cons in Hin' as [-> | ?]; [| done].
      by rewrite lookup_delete_eq.
    + rewrite lookup_delete_ne; [done |]. intros <-. apply Hout'. left.
Qed.

(** X14.  The scrape block removes the feed file of every spider it is
    about to run before the crawler starts, and touches no other file:
    the crawler gets a file system without those feed files and otherwise
    equal to the one before.  With [--onlymetrics] the feed file of a
    product catalogue is therefore kept. *)
Theorem scrape_clears_feed_files
    (crawl : list string -> filesystem -> filesystem * result unit)
    (a : args) (fs : filesystem) :
  exists cleared,
    scrape_action crawl a fs = crawl (feed_names a) cleared
    /\ (forall name, name ∈ feed_names a ->
          cleared !! feed_filename (args_prefix a) name = None)
    /\ (forall f, (forall name, name ∈ feed_names a ->
                     f <> feed_filename (args_prefix a) name) ->
          cleared !! f = fs !! f)
    /\ (args_onlymetrics a = true ->
        forall name, name ∉ METRICS_SPIDERS ->
          cleared !! feed_filename (args_prefix a) name
          = fs !! feed_filename (args_prefix a) name).
Proof.
  eexists. split; [reflexivity |]. split; [| split].
  - intros name Hin. rewrite cleared_lookup, decide_True; [done |].
    apply list_elem_of_fmap. by exists name.
  - intros f Hf. rewrite cleared_lookup, decide_False; [done |].
    intros Hin. apply list_elem_of_fmap in Hin as (name & -> & Hin).
    by apply (Hf name).
  - intros Hom name Hname. rewrite cleared_lookup, decide_False; [done |].
    intros Hin. apply list_elem_of_fmap in Hin as (m & Heq & Hin).
    apply feed_filename_inj in Heq. subst m.
    unfold feed_names in Hin. rewrite Hom in Hin. done.
Qed.

Lemma scrape_clears_feed_files_witness :
  exists cleared,
    scrape_action (fun _ fs => (fs, Ok tt))
                  (Args ["scrape"] "p-" true false ["bolts"]) ∅
    = (fun _ fs => (fs, Ok tt))
        (feed_names (Args ["scrape"] "p-" true false ["bolts"])) cleared
    /\ (cleared : filesystem) !! feed_filename "p-" "bolts"
       = (∅ : filesystem) !! feed_filename "p-" "bolts".
Proof.
  destruct (scrape_clears_feed_files (fun _ fs => (fs, Ok tt))
              (Args ["scrape"] "p-" true false ["bolts"]) ∅)
    as (cleared & Heq & _ & _ & Hkeep).
  exists cleared. split; [exact Heq |].
  apply (Hkeep eq_refl "bolts"). vm_compute.
  intros H. repeat (apply elem_of_cons in H as [H | H]; [discriminate |]).
  by apply elem_of_nil in H.
Defined.

(** ** How a run ends *)

Lemma csv_action_unbound (namespace : gset string) (prefix name : string)
    (catalogues : list string) (fs : filesystem) (e : exn) :
  load_name namespace "FEED_URI" = Raise e ->
  csv_action namespace prefix (name :: catalogues) fs = (fs, Raise e).
Proof.
  intros Hl. cbn [csv_action]. unfold csv_catalogue. by rewrite Hl.
Qed.

Lemma namespace_after_unbound
    (r : run) :
  load_name (namespace_after r) "FEED_URI" = Raise (NameError "FEED_URI").
Proof.
  unfold namespace_after. destruct (decide _).
  - exact (feed_uri_unbound false).
  - exact (feed_uri_unbound true).
Qed.

(** X15.  How the module body ends.  It exits with status 0 exactly
    when [--list] is given and with status 1 exactly when no action is
    given without [--list]; in both cases no phase is entered and no file
    is touched.  A run that requests [build] never completes normally.  A
    run that requests [csv] for at least one catalogue never completes
    either and never enters the build phase. *)
Theorem main_outcome
    (crawl : list string -> filesystem -> filesystem * result unit)
    (a : args) (fs : filesystem) :
  ((main crawl a fs).2 = Exit 0 <-> args_list a = true)
  /\ ((main crawl a fs).2 = Exit 1
      <-> args_list a = false /\ args_actions a = [])
  /\ (args_list a = true \/ args_actions a = [] ->
      (main crawl a fs).1 = Run [] fs None)
  /\ ("build" ∈ args_actions a -> (main crawl a fs).2 <> Completed)
  /\ ("csv" ∈ args_actions a -> args_catalogues a <> [] ->
      (main crawl a fs).2 <> Completed
      /\ Build ∉ run_phases (main crawl a fs).1).
Proof.
  split_and!.
  - unfold main. destruct (args_list a); [by split |].
    destruct (decide _); simpl; [by split |].
    destruct (run_raised _); by split.
  - unfold main. destruct (args_list a).
    { split; [discriminate | by intros [? _]]. }
    destruct (decide _) as [Hnil | Hne]; simpl; [by split |].
    destruct (run_raised _); split; try discriminate; by intros [_ ?].
  - intros Hq. unfold main. destruct (args_list a); [done |].
    destruct Hq as [Hq | Hq]; [discriminate |]. by rewrite decide_True.
  - intros Hb. unfold main. destruct (args_list a); [done |].
    destruct (decide _); [done |]. cbn [snd].
    unfold block at 1.
    destruct (run_raised (block a "csv" Csv _ _)) eqn:E; [by rewrite E |].
    rewrite decide_True by done. done.
  - intros Hcsv Hcat. unfold main. destruct (args_list a).
    { split; [done |]. by intros H%elem_of_nil. }
    destruct (decide _).
    { split; [done |]. by intros H%elem_of_nil. }
    cbn [fst snd].
    set (r1 := block a "scrape" Scrape (scrape_action crawl a)
                     (Run [] fs None)).
    assert (run_phases r1 = [] \/ run_phases r1 = [Scrape]) as Hr1.
    { unfold r1, block. simpl. destruct (decide _); [| by left].
      destruct (scrape_action crawl a fs) as [? [[] | ?]]; by right. }
    assert (forall r, run_raised r <> None ->
                      block a "build" Build build_action r = r) as Hb.
    { intros r Hr. unfold block. by destruct (run_raised r). }
    destruct (args_catalogues a) as [| name rest]; [done |].
    assert (exists r2,
              block a "csv" Csv
                    (csv_action (namespace_after r1) (args_prefix a)
                                (name :: rest)) r1 = r2
              /\ run_raised r2 <> None /\ Build ∉ run_phases r2)
      as (r2 & -> & Hraised & Hphases).
    { unfold block. destruct (run_raised r1) as [e |] eqn:Er.
      - exists r1. split; [done |]. split; [by rewrite Er |].
        destruct Hr1 as [-> | ->]; intros Hin.
        + by apply elem_of_nil in Hin.
        + apply list_elem_of_singleton in Hin. discriminate.
      - rewrite decide_True by done.
        rewrite (csv_action_unbound _ _ _ _ _ _ (namespace_after_unbound r1)).
        eexists. split; [done |]. simpl. split; [done |].
        destruct Hr1 as [-> | ->]; intros Hin;
          repeat (apply elem_of_cons in Hin as [Hin | Hin]; [discriminate |]);
          by apply elem_of_nil in Hin. }
    rewrite Hb by done. split; [| done].
    by destruct (run_raised r2).
Qed.

Lemma main_outcome_witness :
  (main (fun _ fs => (fs, Ok tt))
        (Args ["build"; "scrape"] "p-" false false ["nuts"]) ∅).2
  <> Completed.
Proof.
  apply (proj1 (proj2 (proj2 (proj2
           (main_outcome (fun _ fs => (fs, Ok tt))
              (Args ["build"; "scrape"] "p-" false false ["nuts"]) ∅))))).
  simpl. left.
Defined.

(** ** The --catalogues argument *)

Lemma foldl_union_elem {A : Type} (F : A -> gset string) (l : list A)
    (acc : gset string) (k : string) :
  k ∈ foldl (fun acc x => acc ∪ F x) acc l
  <-> k ∈ acc \/ exists x, x ∈ l /\ k ∈ F x.
Proof.
  revert acc. induction l as [| x l IH]; intros acc; simpl.
  - split; [by left |]. intros [? | (x & Hx & _)]; [done |].
    by apply elem_of_nil in Hx.
  - rewrite IH, elem_of_union. split.
    + intros [[? | ?] | (y & Hy & Hk)]; [by left | |].
      * right. exists x. split; [left | done].
      * right. exists y. split; [by right | done].
    + intros [? | (y & Hy & Hk)]; [left; by left |].
      apply elem_of_cons in Hy as [-> | Hy]; [left; by right |].
      right. by exists y.
Qed.

(** X16.  The catalogues selected by [--catalogues]: a name is selected
    exactly when it is a key of the registry and one of the
    comma-separated patterns matches it (whatever the order of the
    patterns and however often a name is matched); the result has no
    duplicate and is in lexicographic order; and every selected name has a
    spider in the registry, so the lookup [SPIDER_MAP[name]] of the scrape
    block cannot fail on it. *)
Theorem catalogues_list_type_spec (fnmatch : string -> string -> bool)
    (value : string) :
  (forall name,
      name ∈ catalogues_list_type fnmatch value
      <-> name ∈ dom SPIDER_MAP
          /\ exists pat, pat ∈ split "," value /\ fnmatch name pat = true)
  /\ NoDup (catalogues_list_type fnmatch value)
  /\ StronglySorted String.le (catalogues_list_type fnmatch value)
  /\ (forall name, name ∈ catalogues_list_type fnmatch value ->
                   is_Some (SPIDER_MAP !! name)).
Proof.
  assert (forall name,
            name ∈ catalogues_list_type fnmatch value
            <-> name ∈ dom SPIDER_MAP
                /\ exists pat, pat ∈ split "," value
                               /\ fnmatch name pat = true) as Hmem.
  { intros name. unfold catalogues_list_type.
    rewrite merge_sort_Permutation, elem_of_elements, foldl_union_elem.
    split.
    - intros [Hin | (pat & Hpat & Hin)]; [by apply elem_of_empty in Hin |].
      apply elem_of_filter in Hin as [Hm Hd]. split; [done |].
      by exists pat.
    - intros [Hd (pat & Hpat & Hm)]. right. exists pat. split; [done |].
      by apply elem_of_filter. }
  split_and!; [exact Hmem | | |].
  - unfold catalogues_list_type. rewrite merge_sort_Permutation.
    apply NoDup_elements.
  - unfold catalogues_list_type. apply StronglySorted_merge_sort; apply _.
  - intros name Hin. apply Hmem in Hin as [Hd _]. by apply elem_of_dom.
Qed.

Lemma catalogues_list_type_spec_witness :
  is_Some (SPIDER_MAP !! "bolts").
Proof.
  apply (proj2 (proj2 (proj2
           (catalogues_list_type_spec (fun name pat => String.eqb name pat)
                                      "nuts,bolts")))).
  vm_compute. left.
Defined.

(** ** GrowingList: writing, then reading *)

(** X17.  Writing slot [i >= 0] and then reading slot [j >= 0] of a
    GrowingList returns the value written when [j = i], and otherwise what
    reading [j] would have returned without the write (the old element,
    or the default beyond the old end): a write disturbs no other slot,
    also when it makes the list grow. *)
Theorem growing_list_set_then_get {T : Type} (d : T) (self : list T)
    (i j : Z) (v : T) :
  0 <= i -> 0 <= j ->
  (GrowingList.getitem d (GrowingList.setitem d self i v).1 j).2
  = if decide (i = j) then Ok v else (GrowingList.getitem d self j).2.
Proof.
  intros Hi Hj. rewrite setitem_nonneg by done. cbn [fst].
  destruct (getitem_nonneg d (<[Z.to_nat i := v]> (GrowingList.grow d self i))
                           j Hj) as (x & Hget & Hx).
  destruct (getitem_nonneg d self j Hj) as (y & Hget' & Hy).
  rewrite Hget, Hget'. cbn [snd].
  pose proof (len_grow d self i) as Hli. unfold len in Hli.
  assert (forall n, GrowingList.grow d self i !! n
                    = if decide (n < length self)%nat then self !! n
                      else if decide (Z.of_nat n <= i) then Some d else None)
    as Hgi.
  { intros n. destruct (decide (n < length self)%nat).
    - by apply grow_lookup_old.
    - destruct (decide (Z.of_nat n <= i)).
      + apply grow_lookup_new; lia.
      + apply lookup_ge_None_2. lia. }
  assert (y = if decide (Z.to_nat j < length self)%nat
              then default d (self !! Z.to_nat j) else d) as ->.
  { destruct (decide (Z.to_nat j < length self)%nat).
    - rewrite grow_lookup_old in Hy by done. by rewrite Hy.
    - rewrite grow_lookup_new in Hy by lia. congruence. }
  destruct (decide (i = j)) as [-> | Hne].
  - rewrite grow_lookup_old in Hx by (rewrite length_insert; lia).
    rewrite list_lookup_insert_eq in Hx by lia. congruence.
  - destruct (decide (Z.to_nat j < length (GrowingList.grow d self i))%nat)
      as [Hin | Hout].
    + rewrite grow_lookup_old in Hx by (by rewrite length_insert).
      rewrite list_lookup_insert_ne in Hx by lia.
      rewrite Hgi in Hx. destruct (decide (Z.to_nat j < length self)%nat).
      * by rewrite Hx.
      * destruct (decide _); congruence.
    + rewrite grow_lookup_new in Hx by (rewrite ?length_insert; lia).
      rewrite decide_False by lia. congruence.
Qed.

Lemma growing_list_set_then_get_witness :
  (GrowingList.getitem None
     (GrowingList.setitem None [Some "a"] 3 (Some "v")).1 1).2
  = if decide (3 = 1) then Ok (Some "v")
    else (GrowingList.getitem None [Some "a"] 1).2.
Proof.
  apply (growing_list_set_then_get None [Some "a"] 3 1 (Some "v")); lia.
Defined.

(** ** The testlabel decorator, seen from other classes *)

Lemma own_labels_other (labels : list string) (h : TestLabel.class_store)
    (cls x : TestLabel.class_id) :
  x <> cls ->
  TestLabel.own_labels (TestLabel.testlabel labels h cls).1 x
  = TestLabel.own_labels h x.
Proof.
  intros Hne. unfold TestLabel.own_labels, TestLabel.testlabel,
    TestLabel.setattr_labels. cbn [fst]. by rewrite lookup_alter_ne.
Qed.

Lemma own_labels_decorated (labels : list string) (h : TestLabel.class_store)
    (cls : TestLabel.class_id) (k : TestLabel.pyclass) :
  h !! cls = Some k ->
  TestLabel.own_labels (TestLabel.testlabel labels h cls).1 cls
  = Some (list_to_set labels ∪ TestLabel.getattr_labels h cls ∅).
Proof.
  intros Hk. unfold TestLabel.own_labels, TestLabel.testlabel,
    TestLabel.setattr_labels. cbn [fst]. by rewrite lookup_alter_eq, Hk.
Qed.

Lemma omap_own_labels_other (labels : list string)
    (h : TestLabel.class_store) (cls : TestLabel.class_id)
    (l : list TestLabel.class_id) :
  cls ∉ l ->
  omap (TestLabel.own_labels (TestLabel.testlabel labels h cls).1) l
  = omap (TestLabel.own_labels h) l.
Proof.
  induction l as [| x l IH]; [done |]. intros Hnin.
  apply not_elem_of_cons in Hnin as [Hne Hnin]. cbn [omap list_omap].
  rewrite own_labels_other by done. fold (omap (TestLabel.own_labels h) l).
  fold (omap (TestLabel.own_labels (TestLabel.testlabel labels h cls).1) l).
  by rewrite IH.
Qed.

Lemma head_omap_decorated (labels : list string)
    (h : TestLabel.class_store) (cls : TestLabel.class_id)
    (k : TestLabel.pyclass) (l after : list TestLabel.class_id) :
  h !! cls = Some k ->
  Forall (fun x => TestLabel.own_labels h x = None) l ->
  head (omap (TestLabel.own_labels (TestLabel.testlabel labels h cls).1)
             (l ++ cls :: after))
  = Some (list_to_set labels ∪ TestLabel.getattr_labels h cls ∅).
Proof.
  intros Hk. induction 1 as [| x l Hx _ IH]; cbn [app omap list_omap].
  - by rewrite (own_labels_decorated labels h cls k).
  - destruct (decide (x = cls)) as [-> | Hne].
    + by rewrite (own_labels_decorated labels h cls k).
    + rewrite own_labels_other, Hx by done. exact IH.
Qed.

(** X18.  What decorating a class [cls] changes for another class [c]:
    nothing when [cls] is not in the MRO of [c]; nothing either when [c]
    has a [_labels] of its own, even if [c] inherits from [cls], so labels
    given to a base class after a subclass was decorated do not reach the
    subclass; and when neither [c] nor any class before [cls] in the MRO
    of [c] has a [_labels] of its own, [c] sees exactly the new labels of
    [cls]. *)
Theorem testlabel_seen_from_other_classes (labels : list string)
    (h : TestLabel.class_store) (cls c : TestLabel.class_id)
    (k kc : TestLabel.pyclass) (dflt : gset string) :
  h !! cls = Some k ->
  h !! c = Some kc ->
  c <> cls ->
  (cls ∉ TestLabel.cls_mro_tail kc ->
   TestLabel.getattr_labels (TestLabel.testlabel labels h cls).1 c dflt
   = TestLabel.getattr_labels h c dflt)
  /\ (forall value, TestLabel.own_labels h c = Some value ->
        TestLabel.getattr_labels (TestLabel.testlabel labels h cls).1 c dflt
        = value)
  /\ (forall before after,
        TestLabel.cls_mro_tail kc = before ++ cls :: after ->
        Forall (fun x => TestLabel.own_labels h x = None) (c :: before) ->
        TestLabel.getattr_labels (TestLabel.testlabel labels h cls).1 c dflt
        = list_to_set labels ∪ TestLabel.getattr_labels h cls ∅).
Proof.
  intros Hk Hc Hne.
  assert ((TestLabel.testlabel labels h cls).1 !! c = Some kc) as Hc'.
  { unfold TestLabel.testlabel, TestLabel.setattr_labels. cbn [fst].
    by rewrite lookup_alter_ne. }
  split; [| split].
  - intros Hnin. unfold TestLabel.getattr_labels. rewrite Hc', Hc.
    rewrite omap_own_labels_other; [done |].
    apply not_elem_of_cons. split; [congruence | done].
  - intros value Hown. apply getattr_labels_own.
    by rewrite own_labels_other.
  - intros before after Hmro Hnone.
    unfold TestLabel.getattr_labels at 1. rewrite Hc', Hmro.
    change (c :: before ++ cls :: after)
      with ((c :: before) ++ cls :: after).
    by rewrite (head_omap_decorated labels h cls k).
Qed.

Lemma testlabel_seen_from_other_classes_witness :
  TestLabel.getattr_labels
    (TestLabel.testlabel ["quick"]
       {[ 1%positive := TestLabel.PyClass [] (Some {["base"]});
          2%positive := TestLabel.PyClass [1%positive] None ]}
       1%positive).1 2%positive ∅
  = list_to_set ["quick"]
    ∪ TestLabel.getattr_labels
        {[ 1%positive := TestLabel.PyClass [] (Some {["base"]});
           2%positive := TestLabel.PyClass [1%positive] None ]}
        1%positive ∅.
Proof.
  refine (proj2 (proj2
            (testlabel_seen_from_other_classes ["quick"]
               {[ 1%positive := TestLabel.PyClass [] (Some {["base"]});
                  2%positive := TestLabel.PyClass [1%positive] None ]}
               1%positive 2%positive
               (TestLabel.PyClass [] (Some {["base"]}))
               (TestLabel.PyClass [1%positive] None) ∅ _ _ _)) [] [] _ _).
  - vm_compute. reflexivity.
  - vm_compute. reflexivity.
  - discriminate.
  - reflexivity.
  - repeat constructor.
Defined.

(** X19.  Decorations of one class combine in the store itself: two
    stacked decorators leave the store that one decorator with both label
    lists leaves, the order of the two decorators does not matter, and
    repeating a decorator changes nothing. *)
Theorem testlabel_stacking (labels1 labels2 : list string)
    (h : TestLabel.class_store) (cls : TestLabel.class_id)
    (k : TestLabel.pyclass) :
  h !! cls = Some k ->
  (TestLabel.testlabel labels2 (TestLabel.testlabel labels1 h cls).1 cls).1
  = (TestLabel.testlabel (labels2 ++ labels1) h cls).1
  /\ (TestLabel.testlabel labels2 (TestLabel.testlabel labels1 h cls).1 cls).1
     = (TestLabel.testlabel labels1
          (TestLabel.testlabel labels2 h cls).1 cls).1
  /\ (TestLabel.testlabel labels1 (TestLabel.testlabel labels1 h cls).1 cls).1
     = (TestLabel.testlabel labels1 h cls).1.
Proof.
  intros Hk.
  assert (forall l1 l2 : list string,
            (TestLabel.testlabel l2 (TestLabel.testlabel l1 h cls).1 cls).1
            = TestLabel.setattr_labels h cls
                (list_to_set l2 ∪ list_to_set l1
                 ∪ TestLabel.getattr_labels h cls ∅)) as Htwice.
  { intros l1 l2. unfold TestLabel.testlabel at 1. cbn [fst].
    rewrite (getattr_labels_own _ cls ∅ _
               (own_labels_decorated l1 h cls k Hk)).
    unfold TestLabel.testlabel, TestLabel.setattr_labels. cbn [fst].
    apply map_eq. intros c. destruct (decide (c = cls)) as [-> | Hne].
    - rewrite !lookup_alter_eq, Hk. cbn. by rewrite (assoc_L (∪)).
    - by rewrite !lookup_alter_ne. }
  split; [| split].
  - rewrite Htwice. unfold TestLabel.testlabel. cbn [fst].
    by rewrite list_to_set_app_L.
  - rewrite !Htwice. f_equal. f_equal. apply (comm_L (∪)).
  - rewrite Htwice. unfold TestLabel.testlabel. cbn [fst]. f_equal.
    by rewrite (idemp_L (∪)).
Qed.

Lemma testlabel_stacking_witness :
  (TestLabel.testlabel ["slow"]
     (TestLabel.testlabel ["quick"]
        {[ 1%positive := TestLabel.PyClass [] None ]} 1%positive).1
     1%positive).1
  = (TestLabel.testlabel (["slow"] ++ ["quick"])
       {[ 1%positive := TestLabel.PyClass [] None ]} 1%positive).1.
Proof.
  apply (testlabel_stacking ["quick"] ["slow"]
           {[ 1%positive := TestLabel.PyClass [] None ]} 1%positive
           (TestLabel.PyClass [] None)).
  vm_compute. reflexivity.
Defined.

(** ** suppress_stdout_stderr *)

Section SuppressOutputFacts.
Context {F : Type} (devnull : F).

Lemma lowest_free_fresh (t : gmap nat F) :
  t !! SuppressOutput.lowest_free t = None.
Proof.
  unfold SuppressOutput.lowest_free.
  destruct (list_find _ _) as [[i n] |] eqn:E.
  - apply list_find_Some in E as (_ & Hn & _). by apply not_elem_of_dom.
  - apply list_find_None in E. exfalso.
    assert (set_seq (C:=gset nat) 0 (S (size t)) ⊆ dom t) as Hsub.
    { intros n Hn%elem_of_set_seq. rewrite Forall_forall in E.
      destruct (decide (n ∈ dom t)) as [| Hnin]; [done |]. exfalso.
      apply (E n); [| exact Hnin]. apply elem_of_seq. lia. }
    apply subseteq_size in Hsub. rewrite size_set_seq, size_dom in Hsub. lia.
Qed.

Lemma os_dup_ok (fd : nat) (t : gmap nat F) (f : F) :
  t !! fd = Some f ->
  SuppressOutput.os_dup fd t
  = Some (<[SuppressOutput.lowest_free t := f]> t,
          SuppressOutput.lowest_free t).
Proof. intros Hfd. unfold SuppressOutput.os_dup. by rewrite Hfd. Qed.

Lemma os_dup2_ok (fd fd2 : nat) (t : gmap nat F) (f : F) :
  t !! fd = Some f ->
  SuppressOutput.os_dup2 fd fd2 t = Some (<[fd2 := f]> t).
Proof. intros Hfd. unfold SuppressOutput.os_dup2. by rewrite Hfd. Qed.

Lemma os_close_ok (fd : nat) (t : gmap nat F) (f : F) :
  t !! fd = Some f ->
  SuppressOutput.os_close fd t = Some (delete fd t).
Proof. intros Hfd. unfold SuppressOutput.os_close. by rewrite Hfd. Qed.

Lemma init_ok (t : gmap nat F) (out err : F) :
  t !! 1%nat = Some out ->
  t !! 2%nat = Some err ->
  exists n1 n2 n3 n4,
    SuppressOutput.init devnull t
    = Some (<[n4 := err]> (<[n3 := out]> (<[n2 := devnull]>
              (<[n1 := devnull]> t))),
            SuppressOutput.Suppressor n1 n2 n3 n4)
    /\ (n1 <> n2 /\ n1 <> n3 /\ n1 <> n4 /\ n2 <> n3 /\ n2 <> n4
        /\ n3 <> n4)
    /\ (t !! n1 = None /\ t !! n2 = None /\ t !! n3 = None
        /\ t !! n4 = None).
Proof.
  intros Hout Herr.
  pose proof (lowest_free_fresh t) as H1.
  set (n1 := SuppressOutput.lowest_free t) in *.
  set (ta := <[n1 := devnull]> t).
  pose proof (lowest_free_fresh ta) as H2.
  set (n2 := SuppressOutput.lowest_free ta) in *.
  set (tb := <[n2 := devnull]> ta).
  pose proof (lowest_free_fresh tb) as H3.
  set (n3 := SuppressOutput.lowest_free tb) in *.
  set (tc := <[n3 := out]> tb).
  pose proof (lowest_free_fresh tc) as H4.
  set (n4 := SuppressOutput.lowest_free tc) in *.
  apply lookup_insert_None in H2 as [H2 H21].
  apply lookup_insert_None in H3 as [H3 H32].
  apply lookup_insert_None in H3 as [H3 H31].
  apply lookup_insert_None in H4 as [H4 H43].
  apply lookup_insert_None in H4 as [H4 H42].
  apply lookup_insert_None in H4 as [H4 H41].
  assert (n1 <> 1 /\ n2 <> 1 /\ n1 <> 2 /\ n2 <> 2 /\ n3 <> 2)%nat
    as (? & ? & ? & ? & ?) by (repeat split; congruence).
  exists n1, n2, n3, n4. split; [| split].
  - unfold SuppressOutput.init, SuppressOutput.os_open_devnull.
    cbv beta iota zeta. fold n1 ta n2 tb.
    rewrite (os_dup_ok 1 tb out)
      by (unfold tb, ta; by rewrite !lookup_insert_ne by done).
    cbn [mbind option_bind]. fold n3 tc.
    rewrite (os_dup_ok 2 tc err)
      by (unfold tc, tb, ta; by rewrite !lookup_insert_ne by done).
    done.
  - done.
  - done.
Qed.

(** X20.  With stdout (1) and stderr (2) open, creating a
    [suppress_stdout_stderr] object, entering it and leaving it all
    succeed.  The object holds four distinct descriptors that were closed
    before; inside the block descriptors 1 and 2 refer to the null device,
    the saved descriptors refer to the original streams and every other
    descriptor that was open is as it was; leaving the block restores the
    descriptor table exactly, so no descriptor leaks. *)
Theorem suppress_stdout_stderr_round_trip (t : gmap nat F) (out err : F) :
  t !! 1%nat = Some out ->
  t !! 2%nat = Some err ->
  exists self t1 t2,
    SuppressOutput.init devnull t = Some (t1, self)
    /\ SuppressOutput.enter self t1 = Some t2
    /\ NoDup [SuppressOutput.null_stdout self;
              SuppressOutput.null_stderr self;
              SuppressOutput.saved_stdout self;
              SuppressOutput.saved_stderr self]
    /\ Forall (fun fd => t !! fd = None)
              [SuppressOutput.null_stdout self;
               SuppressOutput.null_stderr self;
               SuppressOutput.saved_stdout self;
               SuppressOutput.saved_stderr self]
    /\ t2 !! 1%nat = Some devnull
    /\ t2 !! 2%nat = Some devnull
    /\ t2 !! SuppressOutput.saved_stdout self = Some out
    /\ t2 !! SuppressOutput.saved_stderr self = Some err
    /\ (forall fd, is_Some (t !! fd) -> fd <> 1%nat -> fd <> 2%nat ->
                   t2 !! fd = t !! fd)
    /\ SuppressOutput.exit self t2 = Some t.
Proof.
  intros Hout Herr.
  destruct (init_ok t out err Hout Herr)
    as (n1 & n2 & n3 & n4 & Hinit
        & (H12 & H13 & H14 & H23 & H24 & H34) & (Hc1 & Hc2 & Hc3 & Hc4)).
  set (td := <[n4 := err]> (<[n3 := out]> (<[n2 := devnull]>
               (<[n1 := devnull]> t)))) in *.
  assert (n1 <> 1 /\ n2 <> 1 /\ n3 <> 1 /\ n4 <> 1
          /\ n1 <> 2 /\ n2 <> 2 /\ n3 <> 2 /\ n4 <> 2)%nat
    as (? & ? & ? & ? & ? & ? & ? & ?)
    by (repeat split; congruence).
  exists (SuppressOutput.Suppressor n1 n2 n3 n4), td,
    (<[2%nat := devnull]> (<[1%nat := devnull]> td)).
  assert (forall fd, fd <> 1%nat -> fd <> 2%nat ->
            (<[2%nat := devnull]> (<[1%nat := devnull]> td)) !! fd
            = if decide (fd = n4) then Some err
              else if decide (fd = n3) then Some out
              else if decide (fd = n2) then Some devnull
              else if decide (fd = n1) then Some devnull
              else t !! fd) as Hin.
  { intros fd Hfd1 Hfd2. rewrite !lookup_insert_ne by done.
    unfold td.
    repeat (destruct (decide _) as [-> |];
            [by rewrite lookup_insert_eq | rewrite lookup_insert_ne by done]).
    done. }
  split; [exact Hinit |].
  split.
  { unfold SuppressOutput.enter. cbn [SuppressOutput.null_stdout
      SuppressOutput.null_stderr].
    rewrite (os_dup2_ok n1 1 td devnull).
    - cbn [mbind option_bind]. apply os_dup2_ok.
      rewrite lookup_insert_ne by done. unfold td.
      rewrite !lookup_insert_ne by done.
      by rewrite lookup_insert_eq.
    - unfold td. rewrite !lookup_insert_ne by done.
      by rewrite lookup_insert_eq. }
  cbn [SuppressOutput.null_stdout SuppressOutput.null_stderr
       SuppressOutput.saved_stdout SuppressOutput.saved_stderr].
  split.
  { repeat (apply NoDup_cons; split;
            [rewrite ?elem_of_cons, elem_of_nil; intuition congruence |]).
    apply NoDup_nil_2. }
  split; [by repeat constructor |].
  split; [by rewrite lookup_insert_ne, lookup_insert_eq by done |].
  split; [by rewrite lookup_insert_eq |].
  cbn [SuppressOutput.saved_stdout SuppressOutput.saved_stderr].
  split.
  { rewrite Hin by done. rewrite decide_False, decide_True by done. done. }
  split.
  { rewrite Hin by done. by rewrite decide_True. }
  split.
  { intros fd [f Hf] Hfd1 Hfd2. rewrite Hin by done.
    rewrite !decide_False by congruence. done. }
  unfold SuppressOutput.exit.
  cbn [SuppressOutput.null_stdout SuppressOutput.null_stderr
       SuppressOutput.saved_stdout SuppressOutput.saved_stderr].
  set (t2 := <[2%nat := devnull]> (<[1%nat := devnull]> td)) in *.
  rewrite (os_dup2_ok n3 1 t2 out)
    by (rewrite Hin by done;
        by rewrite decide_False, decide_True by done).
  cbn [mbind option_bind].
  rewrite (os_dup2_ok n4 2 _ err)
    by (rewrite lookup_insert_ne by done; rewrite Hin by done;
        by rewrite decide_True).
  cbn [mbind option_bind].
  rewrite (os_close_ok n1 _ devnull).
  2:{ rewrite !lookup_insert_ne by done. rewrite Hin by done.
      rewrite !decide_False by done. by rewrite decide_True. }
  cbn [mbind option_bind].
  rewrite (os_close_ok n2 _ devnull).
  2:{ rewrite lookup_delete_ne, !lookup_insert_ne by done.
      rewrite Hin by done.
      rewrite !decide_False by done. by rewrite decide_True. }
  cbn [mbind option_bind].
  rewrite (os_close_ok n3 _ out).
  2:{ rewrite !lookup_delete_ne, !lookup_insert_ne by done.
      rewrite Hin by done.
      rewrite decide_False by done. by rewrite decide_True. }
  cbn [mbind option_bind].
  rewrite (os_close_ok n4 _ err).
  2:{ rewrite !lookup_delete_ne, !lookup_insert_ne by done.
      rewrite Hin by done. by rewrite decide_True. }
  f_equal. apply map_eq. intros fd.
  destruct (decide (fd = n4)) as [-> | Hn4];
    [by rewrite lookup_delete_eq |].
  rewrite lookup_delete_ne by done.
  destruct (decide (fd = n3)) as [-> | Hn3];
    [by rewrite lookup_delete_eq |].
  rewrite lookup_delete_ne by done.
  destruct (decide (fd = n2)) as [-> | Hn2];
    [by rewrite lookup_delete_eq |].
  rewrite lookup_delete_ne by done.
  destruct (decide (fd = n1)) as [-> | Hn1];
    [by rewrite lookup_delete_eq |].
  rewrite lookup_delete_ne by done.
  destruct (decide (fd = 2%nat)) as [-> | Hfd2];
    [by rewrite lookup_insert_eq |].
  rewrite lookup_insert_ne by done.
  destruct (decide (fd = 1%nat)) as [-> | Hfd1];
    [by rewrite lookup_insert_eq |].
  rewrite lookup_insert_ne by done.
  rewrite Hin by done. by rewrite !decide_False by done.
Qed.
(** X21.  A [suppress_stdout_stderr] object serves one block only: on the
    descriptor table that leaving the block restores (the table the object
    was created on), its descriptors are closed, so entering it again
    fails, and so does leaving it a second time. *)
Theorem suppress_stdout_stderr_single_use (t t1 : gmap nat F) (out err : F)
    (self : SuppressOutput.suppressor) :
  t !! 1%nat = Some out ->
  t !! 2%nat = Some err ->
  SuppressOutput.init devnull t = Some (t1, self) ->
  SuppressOutput.enter self t = None
  /\ SuppressOutput.exit self t = None.
Proof.
  intros Hout Herr Hinit.
  destruct (init_ok t out err Hout Herr)
    as (n1 & n2 & n3 & n4 & Hinit' & _ & (Hc1 & _ & Hc3 & _)).
  rewrite Hinit in Hinit'. injection Hinit' as _ ->.
  unfold SuppressOutput.enter, SuppressOutput.exit, SuppressOutput.os_dup2.
  cbn [SuppressOutput.null_stdout SuppressOutput.saved_stdout].
  by rewrite Hc1, Hc3.
Qed.
End SuppressOutputFacts.

Lemma suppress_stdout_stderr_round_trip_witness :
  exists self t1 t2,
    SuppressOutput.init "null"
      ({[ 0%nat := "tty"; 1%nat := "tty"; 2%nat := "log" ]}
         : gmap nat string) = Some (t1, self)
    /\ SuppressOutput.enter self t1 = Some t2
    /\ SuppressOutput.exit self t2
       = Some {[ 0%nat := "tty"; 1%nat := "tty"; 2%nat := "log" ]}.
Proof.
  destruct (suppress_stdout_stderr_round_trip "null"
              ({[ 0%nat := "tty"; 1%nat := "tty"; 2%nat := "log" ]}
                 : gmap nat string) "tty" "log")
    as (self & t1 & t2 & Hinit & Henter & _ & _ & _ & _ & _ & _ & _ & Hexit).
  - vm_compute. reflexivity.
  - vm_compute. reflexivity.
  - exists self, t1, t2. split; [exact Hinit |]. split; [exact Henter |].
    exact Hexit.
Defined.

Lemma suppress_stdout_stderr_single_use_witness :
  SuppressOutput.enter (SuppressOutput.Suppressor 3 4 5 6)
    ({[ 0%nat := "tty"; 1%nat := "tty"; 2%nat := "log" ]}
       : gmap nat string) = None.
Proof.
  refine (proj1 (suppress_stdout_stderr_single_use "null"
            ({[ 0%nat := "tty"; 1%nat := "tty"; 2%nat := "log" ]}
               : gmap nat string)
            ({[ 0%nat := "tty"; 1%nat := "tty"; 2%nat := "log";
                3%nat := "null"; 4%nat := "null"; 5%nat := "tty";
                6%nat := "log" ]} : gmap nat string)
            "tty" "log" (SuppressOutput.Suppressor 3 4 5 6) _ _ _)).
  - vm_compute. reflexivity.
  - vm_compute. reflexivity.
  - vm_compute. reflexivity.
Defined.

(** ** CQPartsTest.assertAlmostEqual *)

Section AlmostEqualFacts.
Context {V : Type} (as_sequence : V -> option (list V))
        (base : V -> V -> result unit).

Lemma first_failing_pair (xs ys : list V) (e : exn) :
  foldM (fun (_ : unit) (ab : V * V) => base ab.1 ab.2) tt (zip xs ys)
  = Raise e ->
  exists (i : nat) (a b : V),
    xs !! i = Some a /\ ys !! i = Some b /\ base a b = Raise e
    /\ (forall (j : nat) (a' b' : V),
          (j < i)%nat -> xs !! j = Some a' -> ys !! j = Some b' ->
          base a' b' = Ok tt).
Proof.
  revert ys. induction xs as [| x xs IH]; intros [| y ys] Hfold;
    try discriminate Hfold.
  cbn [zip zip_with foldM fst snd] in Hfold.
  destruct (base x y) as [[] |e'] eqn:Hxy; cbn [bind] in Hfold.
  - destruct (IH ys Hfold) as (i & a & b & Ha & Hb & Hab & Hbefore).
    exists (S i), a, b. repeat split; try done.
    intros [| j] a' b' Hj Ha' Hb'.
    + cbn in Ha', Hb'. congruence.
    + apply (Hbefore j); [lia | done | done].
  - injection Hfold as ->. exists 0%nat, x, y. repeat split; try done.
    intros j a' b' Hj. lia.
Qed.

(** X22.  [assertAlmostEqual] on two sequences: sequences of different
    lengths raise [ValueError] whatever their elements; sequences of the
    same length pass exactly when every pair of elements at the same
    position passes the base assertion, and a failure is the failure of
    the first pair that does not pass.  Elements are handed to the base
    assertion as they are, also when they are sequences themselves. *)
Theorem assertAlmostEqual_sequences (first second : V) (xs ys : list V) :
  as_sequence first = Some xs ->
  as_sequence second = Some ys ->
  (length xs <> length ys ->
   assertAlmostEqual as_sequence base first second = Raise ValueError)
  /\ (length xs = length ys ->
      (assertAlmostEqual as_sequence base first second = Ok tt
       <-> Forall2 (fun a b => base a b = Ok tt) xs ys)
      /\ (forall e,
            assertAlmostEqual as_sequence base first second = Raise e ->
            exists (i : nat) (a b : V),
              xs !! i = Some a /\ ys !! i = Some b /\ base a b = Raise e
              /\ (forall (j : nat) (a' b' : V),
                    (j < i)%nat -> xs !! j = Some a' -> ys !! j = Some b' ->
                    base a' b' = Ok tt))).
Proof.
  intros Hxs Hys. unfold assertAlmostEqual. rewrite Hxs, Hys.
  split; [intros Hne; by rewrite decide_False |].
  intros Hlen. rewrite decide_True by done. split.
  - clear Hxs Hys. split.
    + revert ys Hlen. induction xs as [| x xs IH]; intros [| y ys] Hlen Hfold;
        try discriminate Hlen; [constructor |].
      cbn [zip zip_with foldM fst snd] in Hfold.
      destruct (base x y) as [[] |e'] eqn:Hxy; cbn [bind] in Hfold;
        [| discriminate Hfold].
      constructor; [done |]. apply IH; [by injection Hlen | done].
    + induction 1 as [| x y xs ys Hxy _ IH]; [done |].
      cbn [zip zip_with foldM fst snd]. rewrite Hxy. cbn [bind].
      apply IH. by injection Hlen.
  - intros e. apply first_failing_pair.
Qed.
End AlmostEqualFacts.

Lemma assertAlmostEqual_sequences_witness :
  assertAlmostEqual
    (fun v : list Z + Z =>
       match v with inl l => Some (inr <$> l) | inr _ => None end)
    (fun a b => if decide (a = b) then Ok tt else Raise AssertionError)
    (inl [1; 2]) (inl [1; 2; 3])
  = Raise ValueError.
Proof.
  refine (proj1 (assertAlmostEqual_sequences
            (fun v : list Z + Z =>
               match v with inl l => Some (inr <$> l) | inr _ => None end)
            (fun a b => if decide (a = b) then Ok tt
                        else Raise AssertionError)
            (inl [1; 2]) (inl [1; 2; 3])
            [inr 1; inr 2] [inr 1; inr 2; inr 3] _ _) _).
  - reflexivity.
  - reflexivity.
  - cbn. lia.
Defined.
